(** * Hybrid weather model (src/ml/hybrid_weather_model.py)

    A shallow embedding of the pure-Python ensemble (baseline + ridge + kNN)
    and the properties its specification states about it.

    Numbers.  Python floats are modelled as exact rationals extended with
    one not-a-number value: arithmetic is exact (no rounding, no overflow,
    no infinities), [NaN] is absorbing and every comparison with it is
    false, as in IEEE 754.  Every arithmetic result is stored in lowest
    terms, so equal values are equal terms.  This reading carries the
    properties of shape, order and control flow.  The size of the
    training subset is computed, and the properties about the values of
    the ensemble weights and of the kNN mean are stated, over a second
    reading, [Double], in which every operation rounds to binary64 and
    raises as Python does.

    Library code.  [math.sqrt] and the generator behind [random.seed] /
    [random.shuffle] are not part of the repository; they are interfaces
    ([MathLib], [RandomLib]) and the general theorems hold for all their
    implementations.  Runs on concrete payloads use the reference
    implementations [sqrt_12] and [lcg]. *)

From Stdlib Require Import String Ascii List ZArith QArith Qabs Qreduction Qpower Qround Bool Arith Lia Lqa Permutation Sorted.
Import ListNotations.
Local Open Scope Q_scope.

Set Implicit Arguments.

(* ================================================================== *)
(** ** Floats *)

Inductive float : Type :=
| Fin (q : Q)
| NaN.

Definition lift2 (f : Q -> Q -> Q) (x y : float) : float :=
  match x, y with
  | Fin a, Fin b => Fin (Qred (f a b))
  | _, _ => NaN
  end.

Definition fadd : float -> float -> float := lift2 Qplus.
Definition fsub : float -> float -> float := lift2 Qminus.
Definition fmul : float -> float -> float := lift2 Qmult.
(** Every divisor met by the program is non-zero in this arithmetic (a
    standard deviation replaced by 1.0 when zero, a pivot of magnitude at
    least 1e-12, an RMSE floored at 1e-6, a positive length), so
    [ZeroDivisionError] has no model here. *)
Definition fdiv : float -> float -> float := lift2 Qdiv.

(** [v ** 2] *)
Definition fsq (x : float) : float := fmul x x.

Definition fabs (x : float) : float :=
  match x with
  | Fin a => Fin (Qabs a)
  | NaN => NaN
  end.

Definition Qltb (a b : Q) : bool := negb (Qle_bool b a).

(** [x < y], [x > y], [x == y]: false as soon as one side is NaN. *)
Definition fltb (x y : float) : bool :=
  match x, y with
  | Fin a, Fin b => Qltb a b
  | _, _ => false
  end.

Definition fgtb (x y : float) : bool := fltb y x.

Definition feqb (x y : float) : bool :=
  match x, y with
  | Fin a, Fin b => Qeq_bool a b
  | _, _ => false
  end.

(** [math.isnan] *)
Definition isnan (x : float) : bool :=
  match x with
  | NaN => true
  | Fin _ => false
  end.

(** An [int] used in float arithmetic ([len(values)], the start of [sum]). *)
Definition of_int (z : Z) : float := Fin (inject_Z z).
Definition of_len {A : Type} (l : list A) : float := of_int (Z.of_nat (length l)).

(** The two-argument builtins [min(a, b)] and [max(a, b)]: the first
    argument is kept unless the second is strictly smaller (larger). *)
Definition pymin (a b : float) : float := if fltb b a then b else a.
Definition pymax (a b : float) : float := if fgtb b a then b else a.

(** [sum(values)]: left to right from the integer 0. *)
Definition fsum (values : list float) : float := fold_left fadd values (of_int 0).

(** [math.sqrt], on the rationals.  The program applies it to sums of
    squares divided by positive counts only, so the [ValueError] of a
    negative argument has no model here. *)
Class MathLib : Type := { math_sqrt : Q -> Q }.

Definition fsqrt `{MathLib} (x : float) : float :=
  match x with
  | Fin a => Fin (Qred (math_sqrt a))
  | NaN => NaN
  end.

(** The literals of the source. *)
Definition c_1e_12 : float := Fin (1 # 1000000000000).
Definition c_1e_6 : float := Fin (1 # 1000000).

(* ================================================================== *)
(** ** Lists as Python uses them *)

(** [l[i]] for reading.  Python raises [IndexError] out of range; the
    matrices built by the program are rectangular, so the default is never
    read on the paths the theorems follow. *)
Definition item (l : list float) (i : nat) : float := nth i l NaN.

(** [m[r][c]] *)
Definition entry (m : list (list float)) (r c : nat) : float :=
  item (nth r m []) c.

(** [l[i] = v] *)
Fixpoint list_set {A : Type} (l : list A) (i : nat) (v : A) : list A :=
  match l, i with
  | [], _ => []
  | _ :: t, O => v :: t
  | h :: t, S i' => h :: list_set t i' v
  end.

(** [enumerate(l)] *)
Definition enumerate {A : Type} (l : list A) : list (nat * A) :=
  combine (seq 0 (length l)) l.

(** [row[-1]] *)
Definition last_item (row : list float) : float := last row NaN.

(** [range(lo, hi)] *)
Definition range (lo hi : nat) : list nat := seq lo (hi - lo).

(* ================================================================== *)
(** ** Statistics utilities *)

Section Numeric.
Context `{MathLib}.

Definition matrix : Type := list (list float).

Definition _mean (values : list float) : float :=
  match values with
  | [] => Fin 0
  | _ => fdiv (fsum values) (of_len values)
  end.

Definition _std (values : list float) : float :=
  if (length values <? 2)%nat then Fin 0
  else
    let mu := _mean values in
    let var := fdiv (fsum (map (fun v => fsq (fsub v mu)) values))
                    (of_int (Z.of_nat (length values) - 1)) in
    fsqrt var.

Definition _rmse (y_true y_pred : list float) : float :=
  match y_true with
  | [] => Fin 0
  | _ =>
    fsqrt (fdiv (fsum (map (fun '(a, b) => fsq (fsub a b)) (combine y_true y_pred)))
                (of_len y_true))
  end.

Definition _standardize (X : matrix) : matrix * list float * list float :=
  match X with
  | [] => (X, [], [])
  | row0 :: _ =>
    let cols := length row0 in
    let stats :=
      map (fun j =>
             let col := map (fun row => item row j) X in
             let mu := _mean col in
             let sigma := _std col in
             let sigma := if feqb sigma (Fin 0) then Fin 1 else sigma in
             (mu, sigma))
          (range 0 cols) in
    let means := map fst stats in
    let stds := map snd stats in
    let Xs :=
      map (fun row =>
             map (fun j => fdiv (fsub (item row j) (item means j)) (item stds j))
                 (range 0 cols))
          X in
    (Xs, means, stds)
  end.

Definition _apply_standardize (x means stds : list float) : list float :=
  map (fun j => fdiv (fsub (item x j) (item means j)) (item stds j))
      (range 0 (length x)).

(* ================================================================== *)
(** ** Linear-algebra primitives *)

(** [zip] over the rows of the matrix: as many columns as the shortest
    row has. *)
Definition _transpose (m : matrix) : matrix :=
  match m with
  | [] => []
  | r :: rs =>
    map (fun j => map (fun row => item row j) m)
        (range 0 (fold_left Nat.min (map (@length float) rs) (length r)))
  end.

(** [sum(a * b for a, b in zip(u, v))] *)
Definition dot (u v : list float) : float :=
  fsum (map (fun '(a, b) => fmul a b) (combine u v)).

Definition _matmul (A B : matrix) : matrix :=
  let Bt := _transpose B in
  map (fun row => map (fun col => dot row col) Bt) A.

Definition _matvec (A : matrix) (v : list float) : list float :=
  map (fun row => dot row v) A.

(** The inner search of [_gaussian_solve]: the first row of largest
    magnitude in column [i] among rows [i .. n-1]. *)
Definition find_pivot (M : matrix) (i n : nat) : nat :=
  fold_left
    (fun pivot r =>
       if fgtb (fabs (entry M r i)) (fabs (entry M pivot i)) then r else pivot)
    (range (i + 1) n) i.

(** One pass of the outer loop of [_gaussian_solve]; [None] is the early
    [return [0.0] * n].  Row [i] is not written by the inner elimination
    loop, so that loop is a map over the rows. *)
Definition eliminate (n : nat) (M : matrix) (i : nat) : option matrix :=
  let pivot := find_pivot M i n in
  if fltb (fabs (entry M pivot i)) c_1e_12 then None
  else
    let M :=
      if (pivot =? i)%nat then M
      else list_set (list_set M i (nth pivot M [])) pivot (nth i M []) in
    let div := entry M i i in
    let M := list_set M i (map (fun v => fdiv v div) (nth i M [])) in
    let Mi := nth i M [] in
    Some (map (fun '(r, Mr) =>
                 if (r =? i)%nat then Mr
                 else
                   let factor := item Mr i in
                   map (fun '(rv, iv) => fsub rv (fmul factor iv)) (combine Mr Mi))
              (enumerate M)).

(** The outer loop over the columns still to be eliminated. *)
Fixpoint gauss_loop (n : nat) (M : matrix) (cols : list nat) : option matrix :=
  match cols with
  | [] => Some M
  | i :: rest =>
    match eliminate n M i with
    | None => None
    | Some M' => gauss_loop n M' rest
    end
  end.

Definition augmented (A : matrix) (b : list float) : matrix :=
  map (fun '(i, row) => row ++ [item b i]) (enumerate A).

Definition _gaussian_solve (A : matrix) (b : list float) : list float :=
  let n := length A in
  match gauss_loop n (augmented A b) (range 0 n) with
  | None => repeat (Fin 0) n
  | Some M => map last_item M
  end.

End Numeric.

(* ================================================================== *)
(** ** Request and response *)

(** A JSON object from names to [number | null].  [dict_get] is
    [d.get(k)]: [None] for an absent key and for a null value alike. *)
Definition dict : Type := list (string * option Q).

Fixpoint dict_get (d : dict) (k : string) : option Q :=
  match d with
  | [] => None
  | (k', v) :: rest => if String.eqb k' k then v else dict_get rest k
  end.

(** One historical record. *)
Record sample : Type := {
  s_features : dict;
  s_target_high : option Q;
  s_target_low : option Q
}.

Definition k_target_high : string := "target_high"%string.
Definition k_target_low : string := "target_low"%string.
Definition k_baseline_high : string := "baseline_high"%string.
Definition k_baseline_low : string := "baseline_low"%string.

(** [sample.get(target_key)] *)
Definition sample_get (s : sample) (key : string) : option Q :=
  if String.eqb key k_target_high then s_target_high s
  else if String.eqb key k_target_low then s_target_low s
  else None.

(** The ["config"] object; [None] is an absent key. *)
Record config : Type := {
  c_ridge_alpha : option Q;
  c_knn_k : option Z;
  c_min_samples : option Z;
  c_calibration_split : option Q;
  c_clip_delta : option Q;
  c_sigma_floor : option Q;
  c_seed : option Z;
  c_sigma_fallback : option Q
}.

Record payload : Type := {
  p_config : config;
  p_training_data : list sample;
  p_features : dict;
  p_feature_keys : list string
}.

(** [d.get(key, default)] on a configuration field. *)
Definition get_or {A : Type} (o : option A) (default : A) : A :=
  match o with
  | Some v => v
  | None => default
  end.

(** Ensemble weights, the dict [{"baseline", "ridge", "knn"}]. *)
Record ens_weights : Type := {
  baseline : float;
  ridge : float;
  knn : float
}.

(** [model_info], one shape per return statement of [run_model]. *)
Inductive info : Type :=
| InsufficientTrainingData (samples : nat)
| TrainingFiltered (samples : nat)
| InvalidFeatures
| StatusOk (samples : nat) (weights_high weights_low : ens_weights)
           (ridge_alpha : float) (knn_k : Z).

Definition status (i : info) : string :=
  match i with
  | InsufficientTrainingData _ => "insufficient_training_data"%string
  | TrainingFiltered _ => "training_filtered"%string
  | InvalidFeatures => "invalid_features"%string
  | StatusOk _ _ _ _ _ => "ok"%string
  end.

(** The response; [None] is JSON null. *)
Record result : Type := {
  forecast_high : option float;
  forecast_low : option float;
  sigma_high : option float;
  sigma_low : option float;
  model_info : info
}.

(** What a call does: return a value or raise. *)
Inductive exn : Type := ValueError.

Inductive outcome (A : Type) : Type :=
| Returns (a : A)
| Raises (e : exn).
Arguments Returns {A} a.
Arguments Raises {A} e.

(** [float(value)] on [number | null]. *)
Definition _safe_float (value : option Q) : float :=
  match value with
  | None => NaN
  | Some q => Fin q
  end.

(** [int(x)] on a float: truncation towards zero. *)
Definition Qtrunc (q : Q) : Z := Z.quot (Qnum q) (Zpos (Qden q)).

(** [keys.index(k)]: the first position, or [ValueError]. *)
Fixpoint list_index (keys : list string) (k : string) : outcome nat :=
  match keys with
  | [] => Raises ValueError
  | k' :: rest =>
    if String.eqb k' k then Returns 0%nat
    else match list_index rest k with
         | Returns i => Returns (S i)
         | Raises e => Raises e
         end
  end.

(* ================================================================== *)
(** ** Ridge regressor, kNN regressor, ensemble weights *)

Record ridge_model : Type := {
  weights : list float;
  r_bias : float;
  means : list float;
  stds : list float
}.

Section Learners.
Context `{MathLib}.

(** The loop [for i in range(len(XtX)): XtX[i][i] += alpha]. *)
Definition add_diagonal (XtX : matrix) (alpha : float) : matrix :=
  fold_left
    (fun M i => list_set M i (list_set (nth i M []) i (fadd (entry M i i) alpha)))
    (range 0 (length XtX)) XtX.

(** [Xb], the standardised matrix with the constant column in front. *)
Definition design (X : matrix) : matrix :=
  let '(Xs, _, _) := _standardize X in
  map (fun row => Fin 1 :: row) Xs.

(** [XtX] as [_ridge_fit] has it before the regularisation loop. *)
Definition gram (X : matrix) : matrix :=
  let Xb := design X in
  _matmul (_transpose Xb) Xb.

(** [XtX] as [_ridge_fit] hands it to the solver. *)
Definition normal_matrix (X : matrix) (alpha : float) : matrix :=
  add_diagonal (gram X) alpha.

(** The model without data carries no means or stds; [run_model] reads
    them only from a model fitted on a non-empty matrix. *)
Definition _ridge_fit (X : matrix) (y : list float) (alpha : float) : ridge_model :=
  match X with
  | [] => {| weights := []; r_bias := Fin 0; means := []; stds := [] |}
  | _ =>
    let '(_, means, stds) := _standardize X in
    let Xt := _transpose (design X) in
    let XtX := normal_matrix X alpha in
    let Xty := _matvec Xt y in
    let coeffs := _gaussian_solve XtX Xty in
    {| weights := tl coeffs; r_bias := item coeffs 0; means := means; stds := stds |}
  end.

Definition _ridge_predict (model : ridge_model) (x : list float) : float :=
  match weights model with
  | [] => NaN
  | _ =>
    let xs := _apply_standardize x (means model) (stds model) in
    fadd (r_bias model) (dot (weights model) xs)
  end.

(** [distances.sort(key=lambda t: t[0])]: a stable sort that compares
    keys with [<] only; an element goes in front of the first one whose
    key is not smaller, so equal keys keep their order. *)
Fixpoint insert_by_key (t : float * float) (sorted : list (float * float))
  : list (float * float) :=
  match sorted with
  | [] => [t]
  | u :: rest =>
    if fltb (fst u) (fst t) then u :: insert_by_key t rest
    else t :: sorted
  end.

Definition sort_by_key (l : list (float * float)) : list (float * float) :=
  fold_right insert_by_key [] l.

(** [max(1, min(k, n))] on integers. *)
Definition clamp_k (k : Z) (n : nat) : Z := Z.max 1 (Z.min k (Z.of_nat n)).

Definition distance (xi x : list float) : float :=
  fsqrt (fsum (map (fun '(a, b) => fsq (fsub a b)) (combine xi x))).

Definition _knn_predict (train_X : matrix) (train_y : list float)
                        (x : list float) (k : Z) : float :=
  match train_X with
  | [] => NaN
  | _ =>
    let distances := map (fun '(xi, yi) => (distance xi x, yi)) (combine train_X train_y) in
    let distances := sort_by_key distances in
    let k := clamp_k k (length distances) in
    let neighbors := map snd (firstn (Z.to_nat k) distances) in
    _mean neighbors
  end.

Definition floor_rmse (r : float) : float := if fgtb r c_1e_6 then r else c_1e_6.

Definition _calc_weights (y_true base_pred ridge_pred knn_pred : list float) : ens_weights :=
  let rmse_base := _rmse y_true base_pred in
  let rmse_ridge := _rmse y_true ridge_pred in
  let rmse_knn := _rmse y_true knn_pred in
  let rmse_base := floor_rmse rmse_base in
  let rmse_ridge := floor_rmse rmse_ridge in
  let rmse_knn := floor_rmse rmse_knn in
  let inv0 := fdiv (of_int 1) rmse_base in
  let inv1 := fdiv (of_int 1) rmse_ridge in
  let inv2 := fdiv (of_int 1) rmse_knn in
  let total := fsum [inv0; inv1; inv2] in
  {| baseline := fdiv inv0 total; ridge := fdiv inv1 total; knn := fdiv inv2 total |}.

Definition _clip (value baseline clip_delta : float) : float :=
  let lower := fsub baseline clip_delta in
  let upper := fadd baseline clip_delta in
  pymax lower (pymin upper value).

(* ================================================================== *)
(** ** Data preparation *)

Fixpoint _prepare_matrix (samples : list sample) (feature_keys : list string)
                         (target_key : string) : matrix * list float :=
  match samples with
  | [] => ([], [])
  | sample :: rest =>
    let '(X, y) := _prepare_matrix rest feature_keys target_key in
    let features := s_features sample in
    let row := map (fun k => _safe_float (dict_get features k)) feature_keys in
    if existsb isnan row then (X, y)
    else
      let target := _safe_float (sample_get sample target_key) in
      if isnan target then (X, y)
      else (row :: X, target :: y)
  end.

End Learners.

(* ================================================================== *)
(** ** The same arithmetic in IEEE 754 binary64

    The definitions above compute with exact rationals; that is enough for
    what the program does with the shape of its data and with comparisons.
    Where the numbers themselves matter (the size of the training subset,
    the ensemble weights, the kNN mean) the functions are read over the
    doubles of the source: every result is rounded to the nearest double
    (ties to even), results beyond the double range become infinities, and
    the operations raise what Python raises ([ZeroDivisionError] for a
    zero divisor, [OverflowError] when [**] overflows, [ValueError] for
    the square root of a negative number).
    The sign of zero is not distinguished; [sum] adds from left to right,
    one rounding per addition; [x ** 2] is the rounded exact square.  A
    finite value is carried as the rational it denotes; the theorems
    quantify over all of them, so over every double. *)

Module Double.

Inductive double : Type :=
| D (q : Q)            (* a finite double, by its value *)
| Inf (negative : bool)
| Nan.

Inductive error : Type := ZeroDivisionError | OverflowError | ValueError.

Inductive raising (A : Type) : Type :=
| Done (a : A)
| Raise (e : error).
Arguments Done {A} a.
Arguments Raise {A} e.

Definition bind {A B : Type} (m : raising A) (f : A -> raising B) : raising B :=
  match m with
  | Done a => f a
  | Raise e => Raise e
  end.

(** [floor(log2 a)] for a positive rational. *)
Definition ilog2 (a : Q) : Z :=
  let l := (Z.log2 (Qnum a) - Z.log2 (Zpos (Qden a)))%Z in
  if Qle_bool (2 ^ l) a then l else (l - 1)%Z.

(** The integer nearest to a rational, ties to the even one. *)
Definition rne (x : Q) : Z :=
  let f := Qfloor x in
  match Qcompare (x - inject_Z f) (1 # 2) with
  | Lt => f
  | Gt => (f + 1)%Z
  | Eq => if Z.even f then f else (f + 1)%Z
  end.

(** Rounding of an exact result to binary64: 53 significant bits, the
    last place never below [2^-1074], infinity from [2^1024] on. *)
Definition rnd (q : Q) : double :=
  if Qeq_bool q 0 then D 0
  else
    let a := Qabs q in
    let e := Z.max (ilog2 a - 52) (-1074) in
    let v := inject_Z (rne (a / 2 ^ e)) * 2 ^ e in
    if Qle_bool (2 ^ 1024) v then Inf (Qltb q 0)
    else D (Qred (if Qltb q 0 then - v else v)).

Definition is_zero (q : Q) : bool := Qeq_bool q 0.

(** A value on the grid of the smallest subnormal, as every double is. *)
Definition on_grid (r : Q) : Prop := exists k : Z, r == inject_Z k * 2 ^ (-1074).

(** [x + y]; adding zero is exact. *)
Definition add (x y : double) : double :=
  match x, y with
  | D a, D b => if is_zero a then D b else if is_zero b then D a else rnd (a + b)
  | Nan, _ | _, Nan => Nan
  | Inf s, D _ | D _, Inf s => Inf s
  | Inf s, Inf s' => if Bool.eqb s s' then Inf s else Nan
  end.

Definition neg (x : double) : double :=
  match x with
  | D a => D (Qred (- a))
  | Inf s => Inf (negb s)
  | Nan => Nan
  end.

(** [x - y] *)
Definition sub (x y : double) : double := add x (neg y).

(** [x * y] *)
Definition mul (x y : double) : double :=
  match x, y with
  | D a, D b => rnd (a * b)
  | Nan, _ | _, Nan => Nan
  | Inf s, D b | D b, Inf s =>
    if is_zero b then Nan else Inf (xorb s (Qltb b 0))
  | Inf s, Inf s' => Inf (xorb s s')
  end.

(** [x / y]: a zero divisor raises, whatever the dividend. *)
Definition div (x y : double) : raising double :=
  match y with
  | D b =>
    if is_zero b then Raise ZeroDivisionError
    else match x with
         | D a => Done (rnd (a / b))
         | Inf s => Done (Inf (xorb s (Qltb b 0)))
         | Nan => Done Nan
         end
  | Inf _ =>
    match x with
    | D _ => Done (D 0)
    | _ => Done Nan
    end
  | Nan => Done Nan
  end.

(** [x ** 2]: an overflowing power of a finite number raises. *)
Definition pow2 (x : double) : raising double :=
  match x with
  | D a =>
    match rnd (a * a) with
    | Inf _ => Raise OverflowError
    | r => Done r
    end
  | Inf _ => Done (Inf false)
  | Nan => Done Nan
  end.

(** [math.sqrt(x)]: the library's root, rounded. *)
Definition sqrt `{MathLib} (x : double) : raising double :=
  match x with
  | D a => if Qltb a 0 then Raise ValueError else Done (rnd (math_sqrt a))
  | Inf false => Done (Inf false)
  | Inf true => Raise ValueError
  | Nan => Done Nan
  end.

(** [x < y] and [x > y]: false as soon as one side is NaN. *)
Definition ltb (x y : double) : bool :=
  match x, y with
  | D a, D b => Qltb a b
  | Nan, _ | _, Nan => false
  | Inf s, Inf s' => s && negb s'
  | Inf s, D _ => s
  | D _, Inf s => negb s
  end.

Definition gtb (x y : double) : bool := ltb y x.

(** Not negative: a finite double that is at least 0, plus infinity, or
    NaN. *)
Definition not_negative (x : double) : Prop :=
  match x with
  | D q => 0 <= q
  | Inf s => s = false
  | Nan => True
  end.

(** A finite double lies inside the double range. *)
Definition in_range (x : double) : Prop :=
  match x with
  | D q => Qabs q < 2 ^ 1024
  | _ => True
  end.

(** An [int] met by a float operand. *)
Definition of_int (z : Z) : double := rnd (inject_Z z).
Definition of_len {A : Type} (l : list A) : double := of_int (Z.of_nat (length l)).

(** [sum(values)]: left to right from the integer 0. *)
Definition fsum (values : list double) : double := fold_left add values (D 0).

(** The generator [(a - b) ** 2 for a, b in zip(u, v)], consumed in order:
    the first power that overflows raises. *)
Fixpoint squares (pairs : list (double * double)) : raising (list double) :=
  match pairs with
  | [] => Done []
  | (a, b) :: rest =>
    bind (pow2 (sub a b)) (fun s =>
    bind (squares rest) (fun ss => Done (s :: ss)))
  end.

(** The literal [1e-6]. *)
Definition c_1e_6 : double := rnd (1 # 1000000).

Section Functions.
Context `{MathLib}.

Definition _mean (values : list double) : raising double :=
  match values with
  | [] => Done (D 0)
  | _ => div (fsum values) (of_len values)
  end.

Definition _rmse (y_true y_pred : list double) : raising double :=
  match y_true with
  | [] => Done (D 0)
  | _ =>
    bind (squares (combine y_true y_pred)) (fun sq =>
    bind (div (fsum sq) (of_len y_true)) (fun mse =>
    sqrt mse))
  end.

Definition floor_rmse (r : double) : double := if gtb r c_1e_6 then r else c_1e_6.

Record ens_weights : Type := {
  baseline : double;
  ridge : double;
  knn : double
}.

Definition _calc_weights (y_true base_pred ridge_pred knn_pred : list double)
  : raising ens_weights :=
  bind (_rmse y_true base_pred) (fun rmse_base =>
  bind (_rmse y_true ridge_pred) (fun rmse_ridge =>
  bind (_rmse y_true knn_pred) (fun rmse_knn =>
  let rmse_base := floor_rmse rmse_base in
  let rmse_ridge := floor_rmse rmse_ridge in
  let rmse_knn := floor_rmse rmse_knn in
  bind (div (of_int 1) rmse_base) (fun inv0 =>
  bind (div (of_int 1) rmse_ridge) (fun inv1 =>
  bind (div (of_int 1) rmse_knn) (fun inv2 =>
  let total := fsum [inv0; inv1; inv2] in
  bind (div inv0 total) (fun w0 =>
  bind (div inv1 total) (fun w1 =>
  bind (div inv2 total) (fun w2 =>
  Done {| baseline := w0; ridge := w1; knn := w2 |}))))))))).

(** [math.sqrt(sum((a - b) ** 2 for a, b in zip(xi, x)))] *)
Definition distance (xi x : list double) : raising double :=
  bind (squares (combine xi x)) (fun sq => sqrt (fsum sq)).

(** The loop that fills [distances], in pool order. *)
Fixpoint distances_of (pool : list (list double * double)) (x : list double)
  : raising (list (double * double)) :=
  match pool with
  | [] => Done []
  | (xi, yi) :: rest =>
    bind (distance xi x) (fun d =>
    bind (distances_of rest x) (fun ds => Done ((d, yi) :: ds)))
  end.

(** The stable sort on the distance, comparing with [<] only. *)
Fixpoint insert_by_key (t : double * double) (sorted : list (double * double))
  : list (double * double) :=
  match sorted with
  | [] => [t]
  | u :: rest =>
    if ltb (fst u) (fst t) then u :: insert_by_key t rest
    else t :: sorted
  end.

Definition sort_by_key (l : list (double * double)) : list (double * double) :=
  fold_right insert_by_key [] l.

Definition _knn_predict (train_X : list (list double)) (train_y : list double)
                        (x : list double) (k : Z) : raising double :=
  match train_X with
  | [] => Done Nan
  | _ =>
    bind (distances_of (combine train_X train_y) x) (fun distances =>
    let distances := sort_by_key distances in
    let k := Z.max 1 (Z.min k (Z.of_nat (length distances))) in
    let neighbors := map snd (firstn (Z.to_nat k) distances) in
    _mean neighbors)
  end.

End Functions.

End Double.

(* ================================================================== *)
(** ** The process-wide generator of the [random] module *)

(** [rng] is the hidden state of the module, [rng_seeded s] the state
    installed by [random.seed(s)], and [rng_randbelow g n] one draw of an
    integer below [n] together with the next state. *)
Class RandomLib : Type := {
  rng : Type;
  rng_seeded : Z -> rng;
  rng_randbelow : rng -> nat -> nat * rng
}.

(** Computations that read and write the generator. *)
Definition Rand `{RandomLib} (A : Type) : Type := rng -> A * rng.

Definition ret `{RandomLib} {A : Type} (a : A) : Rand A := fun g => (a, g).

Definition bind `{RandomLib} {A B : Type} (m : Rand A) (f : A -> Rand B) : Rand B :=
  fun g => let '(a, g') := m g in f a g'.

Notation "x <- m ;; k" := (bind m (fun x => k))
  (at level 61, m at next level, right associativity).
Notation "' pat <- m ;; k" := (bind m (fun x => match x with pat => k end))
  (at level 61, pat pattern, m at next level, right associativity).

Section Orchestrator.
Context `{MathLib} `{RandomLib}.

(** [random.seed(seed)] overwrites the state. *)
Definition random_seed (seed : Z) : Rand unit := fun _ => (tt, rng_seeded seed).

Definition randbelow (n : nat) : Rand nat := fun g => rng_randbelow g n.

(** [x[i], x[j] = x[j], x[i]] *)
Definition swap {A : Type} (x : list A) (i j : nat) : list A :=
  match nth_error x i, nth_error x j with
  | Some a, Some b => list_set (list_set x i b) j a
  | _, _ => x
  end.

(** [random.shuffle(x)]: for [i] from [len(x) - 1] down to 1, exchange
    [x[i]] with [x[j]] for a drawn [j] below [i + 1]. *)
Fixpoint shuffle_from {A : Type} (x : list A) (indices : list nat) : Rand (list A) :=
  match indices with
  | [] => ret x
  | i :: rest =>
    j <- randbelow (i + 1) ;;
    shuffle_from (swap x i j) rest
  end.

Definition random_shuffle {A : Type} (x : list A) : Rand (list A) :=
  shuffle_from x (rev (range 1 (length x))).

(** [max(1, int(n * (1 - split)))] with the product taken in doubles, as
    the source takes it: [split] is the number of the payload, [float] of
    it the nearest double.  [int] raises on an infinite or NaN product;
    that takes a fraction beyond the double range of the record count and
    has no model here. *)
Definition split_cut (n : nat) (split : Q) : Z :=
  match Double.mul (Double.of_int (Z.of_nat n))
                   (Double.sub (Double.of_int 1) (Double.rnd split)) with
  | Double.D q => Z.max 1 (Qtrunc q)
  | _ => 1%Z
  end.

Definition _split_data (data : list sample) (split : Q)
  : Rand (list sample * list sample) :=
  match data with
  | [] => ret ([], [])
  | _ =>
    data_copy <- random_shuffle data ;;
    let cut := split_cut (length data_copy) split in
    ret (firstn (Z.to_nat cut) data_copy, skipn (Z.to_nat cut) data_copy)
  end.

Definition default_feature_keys : list string :=
  [ "baseline_high"; "baseline_low"; "spread_high"; "spread_low"; "lead_days";
    "day_of_year_sin"; "day_of_year_cos"; "lat"; "lon" ]%string.

(** The dict returned by each of the three early exits. *)
Definition fallback (features : dict) (cfg : config) (i : info) : result :=
  {| forecast_high := option_map Fin (dict_get features k_baseline_high);
     forecast_low := option_map Fin (dict_get features k_baseline_low);
     sigma_high := option_map Fin (c_sigma_fallback cfg);
     sigma_low := option_map Fin (c_sigma_fallback cfg);
     model_info := i |}.

(** [[row[feature_keys.index(name)] for row in X_calib] if X_calib else []] *)
Definition baseline_column (feature_keys : list string) (name : string)
                           (X_calib : matrix) : outcome (list float) :=
  match X_calib with
  | [] => Returns []
  | _ =>
    match list_index feature_keys name with
    | Returns j => Returns (map (fun row => item row j) X_calib)
    | Raises e => Raises e
    end
  end.

(** [w["baseline"] * b + w["ridge"] * r + w["knn"] * k] *)
Definition blend (w : ens_weights) (b r k : float) : float :=
  fadd (fadd (fmul (baseline w) b) (fmul (ridge w) r)) (fmul (knn w) k).

Fixpoint zip3 (a b c : list float) : list (float * float * float) :=
  match a, b, c with
  | x :: a', y :: b', z :: c' => (x, y, z) :: zip3 a' b' c'
  | _, _, _ => []
  end.

Definition fixed_weights : ens_weights :=
  {| baseline := Fin (1 # 2); ridge := Fin (3 # 10); knn := Fin (2 # 10) |}.

(** [run_model] from the fitted models on (source lines 259-338):
    calibration predictions, weights, the check of the current features,
    blend, clip and sigma.  Nothing raises in this part. *)
Definition ensemble (cfg : config) (features : dict) (feature_keys : list string)
    (ridge_alpha : float) (knn_k : Z) (clip_delta sigma_floor : float)
    (X_train : matrix) (model_high model_low : ridge_model)
    (X_calib X_calib_std : matrix) (y_high_calib y_low_calib : list float)
    (baseline_high baseline_low : list float) : result :=
  let ridge_high := map (_ridge_predict model_high) X_calib in
  let ridge_low := map (_ridge_predict model_low) X_calib in
  let knn_high :=
    map (fun x => _knn_predict X_calib_std y_high_calib
                    (_apply_standardize x (means model_high) (stds model_high)) knn_k)
        X_calib in
  let knn_low :=
    map (fun x => _knn_predict X_calib_std y_low_calib
                    (_apply_standardize x (means model_low) (stds model_low)) knn_k)
        X_calib in
  let weights_high :=
    match y_high_calib with
    | [] => fixed_weights
    | _ => _calc_weights y_high_calib baseline_high ridge_high knn_high
    end in
  let weights_low :=
    match y_low_calib with
    | [] => fixed_weights
    | _ => _calc_weights y_low_calib baseline_low ridge_low knn_low
    end in
  let x_current := map (fun k => _safe_float (dict_get features k)) feature_keys in
  if existsb isnan x_current then fallback features cfg InvalidFeatures
  else
    let baseline_current_high := _safe_float (dict_get features k_baseline_high) in
    let baseline_current_low := _safe_float (dict_get features k_baseline_low) in
    let ridge_pred_high := _ridge_predict model_high x_current in
    let ridge_pred_low := _ridge_predict model_low x_current in
    let x_current_std_high :=
      _apply_standardize x_current (means model_high) (stds model_high) in
    let x_current_std_low :=
      _apply_standardize x_current (means model_low) (stds model_low) in
    let knn_pred_high :=
      match X_calib_std with
      | [] => baseline_current_high
      | _ => _knn_predict X_calib_std y_high_calib x_current_std_high knn_k
      end in
    let knn_pred_low :=
      match X_calib_std with
      | [] => baseline_current_low
      | _ => _knn_predict X_calib_std y_low_calib x_current_std_low knn_k
      end in
    let blended_high :=
      blend weights_high baseline_current_high ridge_pred_high knn_pred_high in
    let blended_low :=
      blend weights_low baseline_current_low ridge_pred_low knn_pred_low in
    let blended_high := _clip blended_high baseline_current_high clip_delta in
    let blended_low := _clip blended_low baseline_current_low clip_delta in
    let ensemble_high :=
      map (fun '(b, r, k) => blend weights_high b r k)
          (zip3 baseline_high ridge_high knn_high) in
    let ensemble_low :=
      map (fun '(b, r, k) => blend weights_low b r k)
          (zip3 baseline_low ridge_low knn_low) in
    let residuals_high :=
      map (fun '(y, p) => fsub y p) (combine y_high_calib ensemble_high) in
    let residuals_low :=
      map (fun '(y, p) => fsub y p) (combine y_low_calib ensemble_low) in
    let sigma_high := pymax (_std residuals_high) sigma_floor in
    let sigma_low := pymax (_std residuals_low) sigma_floor in
    {| forecast_high := Some blended_high;
       forecast_low := Some blended_low;
       sigma_high := Some sigma_high;
       sigma_low := Some sigma_low;
       model_info := StatusOk (length X_train) weights_high weights_low ridge_alpha knn_k |}.

(** The training matrices of [run_model] (source lines 234-235): the
    feature matrix and the high targets come from one pass over the
    training subset, the low targets from a second pass whose feature
    matrix is discarded. *)
Definition training_matrices (train_set : list sample) (feature_keys : list string)
  : matrix * list float * list float :=
  let '(X_train, y_high_train) := _prepare_matrix train_set feature_keys k_target_high in
  let '(_, y_low_train) := _prepare_matrix train_set feature_keys k_target_low in
  (X_train, y_high_train, y_low_train).

Definition run_model (p : payload) : Rand (outcome result) :=
  let cfg := p_config p in
  let ridge_alpha := Fin (get_or (c_ridge_alpha cfg) 1) in
  let knn_k := get_or (c_knn_k cfg) 7%Z in
  let min_samples := get_or (c_min_samples cfg) 25%Z in
  let calibration_split := get_or (c_calibration_split cfg) (2 # 10) in
  let clip_delta := Fin (get_or (c_clip_delta cfg) 12) in
  let sigma_floor := Fin (get_or (c_sigma_floor cfg) (15 # 10)) in
  let seed := get_or (c_seed cfg) 42%Z in
  _ <- random_seed seed ;;
  let training_data := p_training_data p in
  let features := p_features p in
  let feature_keys :=
    match p_feature_keys p with
    | [] => default_feature_keys
    | keys => keys
    end in
  if (Z.of_nat (length training_data) <? min_samples)%Z then
    ret (Returns (fallback features cfg (InsufficientTrainingData (length training_data))))
  else
    '(train_set, calib_set) <- _split_data training_data calibration_split ;;
    let calib_set := match calib_set with [] => train_set | _ => calib_set end in
    let '(X_train, y_high_train, y_low_train) := training_matrices train_set feature_keys in
    if match X_train with [] => true | _ => false end
       || (Z.of_nat (length y_high_train) <? min_samples)%Z then
      ret (Returns (fallback features cfg (TrainingFiltered (length X_train))))
    else
      let model_high := _ridge_fit X_train y_high_train ridge_alpha in
      let model_low := _ridge_fit X_train y_low_train ridge_alpha in
      let '(X_calib, y_high_calib) := _prepare_matrix calib_set feature_keys k_target_high in
      let '(_, y_low_calib) := _prepare_matrix calib_set feature_keys k_target_low in
      let X_calib_std :=
        map (fun x => _apply_standardize x (means model_high) (stds model_high)) X_calib in
      match baseline_column feature_keys k_baseline_high X_calib with
      | Raises e => ret (Raises e)
      | Returns baseline_high =>
        match baseline_column feature_keys k_baseline_low X_calib with
        | Raises e => ret (Raises e)
        | Returns baseline_low =>
          ret (Returns (ensemble cfg features feature_keys ridge_alpha knn_k
                          clip_delta sigma_floor X_train model_high model_low
                          X_calib X_calib_std y_high_calib y_low_calib
                          baseline_high baseline_low))
        end
      end.

End Orchestrator.

(* ================================================================== *)
(** ** Reference implementations of the two library interfaces

    Used only to run the model on concrete payloads. *)

(** Square root rounded down to twelve decimal places. *)
Definition sqrt_12 : MathLib :=
  {| math_sqrt := fun q =>
       Z.sqrt (Qnum q * 1000000000000000000000000 / Zpos (Qden q)) # 1000000000000 |}.

(** A linear congruential generator. *)
Definition lcg : RandomLib :=
  {| rng := Z;
     rng_seeded := fun s => (s mod 2147483648)%Z;
     rng_randbelow := fun g n =>
       let g' := ((1103515245 * g + 12345) mod 2147483648)%Z in
       (Z.to_nat ((g' / 65536) mod Z.of_nat n), g') |}.

(** Payloads used to run the model. *)

(** The end-to-end payload of the specification: one record, the single
    feature [a], no calibration split. *)
Definition payload_single_feature : payload :=
  {| p_config :=
       {| c_ridge_alpha := None; c_knn_k := None; c_min_samples := Some 1%Z;
          c_calibration_split := Some 0; c_clip_delta := None; c_sigma_floor := None;
          c_seed := None; c_sigma_fallback := None |};
     p_training_data :=
       [ {| s_features := [("a"%string, Some 1)];
            s_target_high := Some 10; s_target_low := Some 0 |} ];
     p_features :=
       [("a"%string, Some 1); (k_baseline_high, Some 10); (k_baseline_low, Some 0)];
     p_feature_keys := ["a"%string] |}.

(** No training data, a fallback sigma of 0.5 and the default floor 1.5. *)
Definition payload_low_fallback_sigma : payload :=
  {| p_config :=
       {| c_ridge_alpha := None; c_knn_k := None; c_min_samples := None;
          c_calibration_split := None; c_clip_delta := None; c_sigma_floor := None;
          c_seed := None; c_sigma_fallback := Some (1 # 2) |};
     p_training_data := [];
     p_features := [(k_baseline_high, Some 10); (k_baseline_low, Some 0)];
     p_feature_keys := [] |}.

(** One fully valid record over the two baseline features, with a chosen
    [clip_delta] ([None] leaves the default 12.0). *)
Definition payload_baselines (clip : option Q) : payload :=
  {| p_config :=
       {| c_ridge_alpha := None; c_knn_k := None; c_min_samples := Some 1%Z;
          c_calibration_split := Some 0; c_clip_delta := clip;
          c_sigma_floor := None; c_seed := None; c_sigma_fallback := None |};
     p_training_data :=
       [ {| s_features := [(k_baseline_high, Some 10); (k_baseline_low, Some 0)];
            s_target_high := Some 12; s_target_low := Some 1 |} ];
     p_features := [(k_baseline_high, Some 10); (k_baseline_low, Some 0)];
     p_feature_keys := [k_baseline_high; k_baseline_low] |}.

Definition payload_negative_clip : payload := payload_baselines (Some (-1)).

(** Two records over the two baseline features; the first has no
    [target_low]. *)
Definition payload_missing_low : payload :=
  {| p_config :=
       {| c_ridge_alpha := None; c_knn_k := None; c_min_samples := Some 1%Z;
          c_calibration_split := Some 0; c_clip_delta := None;
          c_sigma_floor := None; c_seed := None; c_sigma_fallback := None |};
     p_training_data :=
       [ {| s_features := [(k_baseline_high, Some 10); (k_baseline_low, Some 0)];
            s_target_high := Some 12; s_target_low := None |};
         {| s_features := [(k_baseline_high, Some 11); (k_baseline_low, Some 1)];
            s_target_high := Some 13; s_target_low := Some 2 |} ];
     p_features := [(k_baseline_high, Some 10); (k_baseline_low, Some 0)];
     p_feature_keys := [k_baseline_high; k_baseline_low] |}.

(** Feature key [a] only and no baseline among the current features; the
    record left for calibration has no targets. *)
Definition payload_missing_baseline : payload :=
  {| p_config :=
       {| c_ridge_alpha := None; c_knn_k := None; c_min_samples := Some 1%Z;
          c_calibration_split := Some (1 # 2); c_clip_delta := None;
          c_sigma_floor := None; c_seed := None; c_sigma_fallback := None |};
     p_training_data :=
       [ {| s_features := [("a"%string, Some 1)];
            s_target_high := Some 10; s_target_low := Some 0 |};
         {| s_features := [("a"%string, Some 1)];
            s_target_high := None; s_target_low := None |} ];
     p_features := [("a"%string, Some 1)];
     p_feature_keys := ["a"%string] |}.

(** Notions used to state the properties. *)

(** The feature keys [run_model] works with. *)
Definition effective_keys (p : payload) : list string :=
  match p_feature_keys p with
  | [] => default_feature_keys
  | keys => keys
  end.

(** The [ridge_alpha] [run_model] works with. *)
Definition effective_alpha (p : payload) : float :=
  Fin (get_or (c_ridge_alpha (p_config p)) 1).

(** The training subset [run_model] draws: the first component of
    [_split_data] run from the seeded generator. *)
Definition training_subset `{RandomLib} (p : payload) : list sample :=
  fst (fst (_split_data (p_training_data p)
                        (get_or (c_calibration_split (p_config p)) (2 # 10))
                        (rng_seeded (get_or (c_seed (p_config p)) 42%Z)))).

(** The feature vector [_prepare_matrix] builds for a record. *)
Definition feature_row (s : sample) (feature_keys : list string) : list float :=
  map (fun k => _safe_float (dict_get (s_features s) k)) feature_keys.

(** A record with numeric features and numeric targets. *)
Definition fully_valid (feature_keys : list string) (s : sample) : Prop :=
  existsb isnan (feature_row s feature_keys) = false
  /\ isnan (_safe_float (s_target_high s)) = false
  /\ isnan (_safe_float (s_target_low s)) = false.

(** [n] rows of [n] entries. *)
Definition square (n : nat) (M : matrix) : Prop :=
  length M = n /\ forall r, (r < n)%nat -> length (nth r M []) = n.

(** One pass of the loop of [add_diagonal]. *)
Definition diag_step (alpha : float) (M : matrix) (i : nat) : matrix :=
  list_set M i (list_set (nth i M []) i (fadd (entry M i i) alpha)).

(** The exact sum of a list of numbers, [None] when a NaN occurs. *)
Definition finite_sum (l : list float) : option Q :=
  fold_right
    (fun x acc =>
       match x, acc with
       | Fin q, Some s => Some (q + s)
       | _, _ => None
       end)
    (Some 0) l.

(** Notions used by the further properties. *)

(** A record that [_prepare_matrix] keeps for the target [target_key]. *)
Definition usable (feature_keys : list string) (target_key : string) (s : sample) : bool :=
  negb (existsb isnan (feature_row s feature_keys))
  && negb (isnan (_safe_float (sample_get s target_key))).

(** The rational a float stands for (0 for NaN), and exact sums. *)
Definition value (x : float) : Q :=
  match x with
  | Fin q => q
  | NaN => 0
  end.

Definition Qsum (qs : list Q) : Q := fold_right Qplus 0 qs.

(** A row with the expected number of entries and no NaN, as
    [_prepare_matrix] produces them. *)
Definition numeric_row (cols : nat) (row : list float) : Prop :=
  length row = cols /\ existsb isnan row = false.

(** [rows] rows that are numeric rows of [cols] entries. *)
Definition numeric_matrix (rows cols : nat) (M : matrix) : Prop :=
  length M = rows /\ forall r, (r < rows)%nat -> numeric_row cols (nth r M []).

(** The rational at [(r, c)]. *)
Definition qentry (M : matrix) (r c : nat) : Q := value (entry M r c).

(** The sum of [f 0 .. f (n-1)]. *)
Definition isum (n : nat) (f : nat -> Q) : Q := Qsum (map f (seq 0 n)).


(** The row of [Xb] that [_ridge_fit] builds from a training row: the
    constant 1.0 in front of the standardised entries. *)
Definition design_row (means stds : list float) (cols : nat) (row : list float)
  : list float :=
  Fin 1 :: map (fun j => fdiv (fsub (item row j) (item means j)) (item stds j))
               (range 0 cols).

(** [Xty = _matvec(Xt, y)] written over the pairs [zip(X, y)] forms: entry
    [j] adds, pair by pair, entry [j] of the design row times the target
    the row is paired with. *)
Definition pair_rhs (means stds : list float) (cols : nat)
                    (pairs : list (list float * float)) : list float :=
  map (fun j =>
         fsum (map (fun '(row, t) => fmul (item (design_row means stds cols row) j) t)
                   pairs))
      (range 0 (S cols)).

(** Twenty fully valid records with [min_samples = 2] and a calibration
    fraction of 0.9. *)
Definition payload_nine_tenths : payload :=
  {| p_config :=
       {| c_ridge_alpha := None; c_knn_k := None; c_min_samples := Some 2%Z;
          c_calibration_split := Some (9 # 10); c_clip_delta := None;
          c_sigma_floor := None; c_seed := None; c_sigma_fallback := None |};
     p_training_data :=
       repeat {| s_features := [(k_baseline_high, Some 10); (k_baseline_low, Some 0)];
                 s_target_high := Some 12; s_target_low := Some 2 |} 20;
     p_features := [(k_baseline_high, Some 10); (k_baseline_low, Some 0)];
     p_feature_keys := [k_baseline_high; k_baseline_low] |}.

(** Reading of the claims on results. *)

(** A reported value that is a number and lies in [[lo, hi]]. *)
Definition within (v : option float) (lo hi : Q) : Prop :=
  exists x, v = Some (Fin x) /\ lo <= x <= hi.

(** A reported value that is a float and does not compare below [floor]. *)
Definition not_below (v : option float) (floor : float) : Prop :=
  exists s, v = Some s /\ fltb s floor = false.

(** A reported value [max(d, floor)]: a number at least [floor], or NaN,
    which [max] hands on when its first argument is NaN. *)
Definition floored (v : option float) (floor : Q) : Prop :=
  exists s, v = Some s /\ (s = NaN \/ exists q, s = Fin q /\ floor <= q).

(* ================================================================== *)
(** * Properties *)

(** ** Comparisons and arithmetic on floats *)

Lemma Qltb_lt (a b : Q) : Qltb a b = true <-> a < b.
Proof.
  unfold Qltb. rewrite negb_true_iff. split; intro Hab.
  - apply Qnot_le_lt. intro Hle. apply Qle_bool_iff in Hle. congruence.
  - destruct (Qle_bool b a) eqn:E; [|reflexivity].
    apply Qle_bool_iff in E. exfalso. exact (Qlt_not_le _ _ Hab E).
Qed.

Lemma Qltb_ge (a b : Q) : Qltb a b = false <-> b <= a.
Proof.
  unfold Qltb. rewrite negb_false_iff. apply Qle_bool_iff.
Qed.

Lemma fltb_irrefl (x : float) : fltb x x = false.
Proof.
  destruct x as [a|]; simpl; [|reflexivity].
  apply Qltb_ge. apply Qle_refl.
Qed.

(** ** The floored RMSE *)

Lemma floor_rmse_finite (x : float) :
  exists r, floor_rmse x = Fin r /\ (1 # 1000000) <= r.
Proof.
  unfold floor_rmse, fgtb, c_1e_6.
  destruct x as [a|]; simpl.
  - destruct (Qltb (1 # 1000000) a) eqn:E.
    + exists a. split; [reflexivity|]. apply Qltb_lt in E. apply Qlt_le_weak, E.
    + exists (1 # 1000000). split; [reflexivity|]. apply Qle_refl.
  - exists (1 # 1000000). split; [reflexivity|]. apply Qle_refl.
Qed.

(** ** The shape of what [run_model] returns *)

Section RunModelFacts.
Context `{MathLib} `{RandomLib}.

(** [ensemble] either takes the invalid-features exit or reports the
    clipped blends and the floored deviations. *)
Lemma ensemble_cases cfg features feature_keys ridge_alpha knn_k clip_delta sigma_floor
    X_train model_high model_low X_calib X_calib_std y_high_calib y_low_calib
    baseline_high baseline_low :
  let r := ensemble cfg features feature_keys ridge_alpha knn_k clip_delta sigma_floor
             X_train model_high model_low X_calib X_calib_std y_high_calib y_low_calib
             baseline_high baseline_low in
  r = fallback features cfg InvalidFeatures
  \/ exists vh vl rh rl wh wl,
       forecast_high r = Some (_clip vh (_safe_float (dict_get features k_baseline_high)) clip_delta)
       /\ forecast_low r = Some (_clip vl (_safe_float (dict_get features k_baseline_low)) clip_delta)
       /\ sigma_high r = Some (pymax (_std rh) sigma_floor)
       /\ sigma_low r = Some (pymax (_std rl) sigma_floor)
       /\ model_info r = StatusOk (length X_train) wh wl ridge_alpha knn_k.
Proof.
  unfold ensemble.
  destruct (existsb isnan (map (fun k => _safe_float (dict_get features k)) feature_keys)).
  - left. reflexivity.
  - right. cbv zeta. do 6 eexists. repeat split.
Qed.

(** [run_model] takes one of the two early exits, raises, or returns what
    [ensemble] returns for the configured clip bound and sigma floor. *)
Lemma run_model_cases (p : payload) (g : rng) :
  let cfg := p_config p in
  (exists n, fst (run_model p g)
             = Returns (fallback (p_features p) cfg (InsufficientTrainingData n)))
  \/ (exists n, fst (run_model p g)
                = Returns (fallback (p_features p) cfg (TrainingFiltered n)))
  \/ (exists e, fst (run_model p g) = Raises e)
  \/ (exists keys ridge_alpha knn_k X_train mh ml Xc Xcs yh yl bh bl,
        fst (run_model p g)
        = Returns (ensemble cfg (p_features p) keys ridge_alpha knn_k
                     (Fin (get_or (c_clip_delta cfg) 12))
                     (Fin (get_or (c_sigma_floor cfg) (15 # 10)))
                     X_train mh ml Xc Xcs yh yl bh bl)).
Proof.
  cbv zeta. unfold run_model, bind, random_seed, ret.
  destruct (Z.of_nat (length (p_training_data p)) <? get_or (c_min_samples (p_config p)) 25)%Z.
  { left. eexists. reflexivity. }
  destruct (_split_data _ _ _) as [[train_set calib_set] g'].
  destruct (training_matrices _ _) as [[X_train y_high_train] y_low_train].
  destruct (_ || _).
  { right. left. eexists. reflexivity. }
  destruct (_prepare_matrix _ _ k_target_high) as [X_calib y_high_calib].
  destruct (_prepare_matrix _ _ k_target_low) as [X_calib' y_low_calib].
  destruct (baseline_column _ k_baseline_high X_calib) as [bh|e].
  2:{ right. right. left. eexists. reflexivity. }
  destruct (baseline_column _ k_baseline_low X_calib) as [bl|e].
  2:{ right. right. left. eexists. reflexivity. }
  right. right. right. do 12 eexists. reflexivity.
Qed.

End RunModelFacts.

(** ** C3: the clip bound *)

Lemma clip_within `{MathLib} (value : float) (b d : Q) :
  0 <= d ->
  exists c, _clip value (Fin b) (Fin d) = Fin c /\ b - d <= c <= b + d.
Proof.
  intro Hd. unfold _clip, pymax, pymin, fgtb, fsub, fadd, lift2. cbv zeta.
  assert (Hlo : Qred (b - d) == b - d) by apply Qred_correct.
  assert (Hhi : Qred (b + d) == b + d) by apply Qred_correct.
  destruct value as [v|]; cbn [fltb].
  - destruct (Qltb v (Qred (b + d))) eqn:Ev; cbn [fltb].
    + destruct (Qltb (Qred (b - d)) v) eqn:El.
      * exists v. split; [reflexivity|].
        apply Qltb_lt in Ev, El. lra.
      * exists (Qred (b - d)). split; [reflexivity|]. lra.
    + destruct (Qltb (Qred (b - d)) (Qred (b + d))) eqn:El.
      * exists (Qred (b + d)). split; [reflexivity|]. lra.
      * exists (Qred (b - d)). split; [reflexivity|]. lra.
  - destruct (Qltb (Qred (b - d)) (Qred (b + d))) eqn:El.
    + exists (Qred (b + d)). split; [reflexivity|]. lra.
    + exists (Qred (b - d)). split; [reflexivity|]. lra.
Qed.

Lemma pymax_not_below (a floor : float) : fltb (pymax a floor) floor = false.
Proof.
  unfold pymax, fgtb. destruct (fltb a floor) eqn:E.
  - apply fltb_irrefl.
  - exact E.
Qed.

Lemma pymax_floored (a : float) (floor : Q) :
  pymax a (Fin floor) = NaN \/ exists q, pymax a (Fin floor) = Fin q /\ floor <= q.
Proof.
  unfold pymax, fgtb. destruct a as [x|]; cbn [fltb]; [|left; reflexivity].
  right. destruct (Qltb x floor) eqn:E.
  - exists floor. split; [reflexivity | apply Qle_refl].
  - exists x. split; [reflexivity | apply Qltb_ge; exact E].
Qed.

Section Claims.
Context `{MathLib} `{RandomLib}.

(** C3, as amended. When [clip_delta] is non-negative and the current
    features hold numeric [baseline_high] and [baseline_low], the two
    forecasts of an ok-status result are numbers within
    [baseline - clip_delta, baseline + clip_delta] of their baseline,
    whatever the weights and the predictions are. *)
Theorem ok_forecast_within_clip (p : payload) (g : rng) (r : result) (bh bl : Q) :
  let d := get_or (c_clip_delta (p_config p)) 12 in
  fst (run_model p g) = Returns r ->
  status (model_info r) = "ok"%string ->
  0 <= d ->
  dict_get (p_features p) k_baseline_high = Some bh ->
  dict_get (p_features p) k_baseline_low = Some bl ->
  within (forecast_high r) (bh - d) (bh + d)
  /\ within (forecast_low r) (bl - d) (bl + d).
Proof.
  intros d Hrun Hok Hd Hbh Hbl.
  destruct (run_model_cases p g) as [(n & E) | [(n & E) | [(e & E) | E]]].
  - rewrite E in Hrun. inversion Hrun; subst r. discriminate Hok.
  - rewrite E in Hrun. inversion Hrun; subst r. discriminate Hok.
  - rewrite E in Hrun. discriminate Hrun.
  - destruct E as (keys & a & k & Xt & mh & ml & Xc & Xcs & yh & yl & cbh & cbl & E).
    rewrite E in Hrun. injection Hrun as Er. clear E.
    pose proof (ensemble_cases (p_config p) (p_features p) keys a k
                  (Fin (get_or (c_clip_delta (p_config p)) 12))
                  (Fin (get_or (c_sigma_floor (p_config p)) (15 # 10)))
                  Xt mh ml Xc Xcs yh yl cbh cbl) as C.
    cbv zeta in C. rewrite Er in C.
    destruct C as [C | (vh & vl & rh & rl & wh & wl & Fh & Fl & _ & _ & _)].
    + rewrite C in Hok. discriminate Hok.
    + rewrite Hbh in Fh. rewrite Hbl in Fl. cbn [_safe_float] in Fh, Fl.
      destruct (clip_within vh bh Hd) as (ch & Ech & Hch).
      destruct (clip_within vl bl Hd) as (cl & Ecl & Hcl).
      split.
      * exists ch. split; [rewrite Fh; f_equal; exact Ech | exact Hch].
      * exists cl. split; [rewrite Fl; f_equal; exact Ecl | exact Hcl].
Qed.

(** C4. A payload with fewer training records than [min_samples] returns
    the status insufficient_training_data and, as forecasts, the values of
    the features [baseline_high] and [baseline_low], unchanged. *)
Theorem insufficient_training_data_fallback (p : payload) (g : rng) :
  (Z.of_nat (length (p_training_data p)) < get_or (c_min_samples (p_config p)) 25)%Z ->
  exists r,
    fst (run_model p g) = Returns r
    /\ status (model_info r) = "insufficient_training_data"%string
    /\ forecast_high r = option_map Fin (dict_get (p_features p) k_baseline_high)
    /\ forecast_low r = option_map Fin (dict_get (p_features p) k_baseline_low).
Proof.
  intro Hlt. apply Z.ltb_lt in Hlt.
  unfold run_model, bind, random_seed, ret. rewrite Hlt.
  eexists. split; [reflexivity|]. repeat split.
Qed.

(** C5, as amended. In every ok-status result [sigma_high] and
    [sigma_low] are [max(deviation, sigma_floor)] and so never less than
    the configured [sigma_floor]: each is a number at least the floor, or
    NaN, which [max] hands on when the deviation of the calibration
    residuals is NaN. Every other result, whichever of the three fallback
    statuses it has, reports the configured [sigma_fallback] (null when
    absent) unchanged, whatever the floor is. *)
Theorem ok_sigma_not_below_floor (p : payload) (g : rng) (r : result) :
  let floor := get_or (c_sigma_floor (p_config p)) (15 # 10) in
  fst (run_model p g) = Returns r ->
  (status (model_info r) = "ok"%string ->
   not_below (sigma_high r) (Fin floor) /\ not_below (sigma_low r) (Fin floor)
   /\ floored (sigma_high r) floor /\ floored (sigma_low r) floor)
  /\ (status (model_info r) <> "ok"%string ->
      sigma_high r = option_map Fin (c_sigma_fallback (p_config p))
      /\ sigma_low r = option_map Fin (c_sigma_fallback (p_config p))).
Proof.
  intros floor Hrun.
  destruct (run_model_cases p g) as [(n & E) | [(n & E) | [(e & E) | E]]].
  - rewrite E in Hrun. injection Hrun as <-.
    split; [intro Hok; discriminate Hok | intros _; split; reflexivity].
  - rewrite E in Hrun. injection Hrun as <-.
    split; [intro Hok; discriminate Hok | intros _; split; reflexivity].
  - rewrite E in Hrun. discriminate Hrun.
  - destruct E as (keys & a & k & Xt & mh & ml & Xc & Xcs & yh & yl & cbh & cbl & E).
    rewrite E in Hrun. injection Hrun as Er. clear E.
    pose proof (ensemble_cases (p_config p) (p_features p) keys a k
                  (Fin (get_or (c_clip_delta (p_config p)) 12)) (Fin floor)
                  Xt mh ml Xc Xcs yh yl cbh cbl) as C.
    cbv zeta in C. fold floor in Er. rewrite Er in C.
    destruct C as [C | (vh & vl & rh & rl & wh & wl & _ & _ & Sh & Sl & Hinfo)].
    + rewrite C.
      split; [intro Hok; discriminate Hok | intros _; split; reflexivity].
    + split.
      * intros _.
        split; [exists (pymax (_std rh) (Fin floor));
                split; [exact Sh | apply pymax_not_below]|].
        split; [exists (pymax (_std rl) (Fin floor));
                split; [exact Sl | apply pymax_not_below]|].
        split.
        -- exists (pymax (_std rh) (Fin floor)).
           split; [exact Sh | apply pymax_floored].
        -- exists (pymax (_std rl) (Fin floor)).
           split; [exact Sl | apply pymax_floored].
      * intro Hno. exfalso. apply Hno. rewrite Hinfo. reflexivity.
Qed.

(** C6. The outcome of [run_model] and the generator state it leaves do
    not depend on the state of the process-wide generator at the call: two
    calls with the same payload agree. The split drawn after
    [random.seed(seed)] is a function of the data, the split fraction and
    the seed alone. *)
Theorem run_model_deterministic (p : payload) (g1 g2 : rng) :
  run_model p g1 = run_model p g2
  /\ forall data split seed,
       (_ <- random_seed seed ;; _split_data data split) g1
       = _split_data data split (rng_seeded seed).
Proof.
  split.
  - unfold run_model, bind, random_seed. reflexivity.
  - intros data split seed. unfold bind, random_seed. reflexivity.
Qed.

End Claims.

(** ** Runs on concrete payloads *)

(** C1. On the end-to-end payload of the specification (one record,
    [feature_keys = ["a"]]) [run_model] does not return a result: the
    lookup [feature_keys.index("baseline_high")] raises [ValueError],
    whatever [math.sqrt] and the generator are. *)
Theorem run_model_raises_without_baseline_key `{MathLib} `{RandomLib} (g : rng) :
  fst (run_model payload_single_feature g) = Raises ValueError.
Proof. reflexivity. Qed.

(** The claim of C3 fails for a negative [clip_delta]: the forecast 11 is
    reported for the baseline 10 and the bound -1, outside [11, 9]. *)
Lemma negative_clip_delta_escapes :
  exists r,
    fst (@run_model sqrt_12 lcg payload_negative_clip 0%Z) = Returns r
    /\ status (model_info r) = "ok"%string
    /\ forecast_high r = Some (Fin 11)
    /\ ~ within (forecast_high r) (10 - (-1)) (10 + (-1)).
Proof.
  eexists. split; [vm_compute; reflexivity|].
  split; [reflexivity|]. split; [reflexivity|].
  intros (x & _ & Hlo & Hhi).
  assert (Habs : 10 - (-1) <= 10 + (-1)) by (eapply Qle_trans; eassumption).
  vm_compute in Habs. apply Habs. reflexivity.
Qed.

(** Without a numeric baseline among the current features an ok-status
    result can report NaN forecasts (here with the reference generator,
    which leaves the record without targets to the calibration subset). *)
Example ok_forecast_nan_without_baseline :
  exists r,
    fst (@run_model sqrt_12 lcg payload_missing_baseline 0%Z) = Returns r
    /\ status (model_info r) = "ok"%string
    /\ forecast_high r = Some NaN
    /\ forecast_low r = Some NaN.
Proof.
  eexists. split; [vm_compute; reflexivity|]. repeat split.
Qed.

Lemma ok_forecast_within_clip_witness :
  exists r,
    fst (@run_model sqrt_12 lcg (payload_baselines None) 0%Z) = Returns r
    /\ status (model_info r) = "ok"%string
    /\ 0 <= 12
    /\ (within (forecast_high r) (10 - 12) (10 + 12)
        /\ within (forecast_low r) (0 - 12) (0 + 12)).
Proof.
  eexists.
  assert (Hrun : fst (@run_model sqrt_12 lcg (payload_baselines None) 0%Z) = Returns _)
    by (vm_compute; reflexivity).
  split; [exact Hrun|].
  split; [reflexivity|].
  split; [discriminate|].
  apply (@ok_forecast_within_clip sqrt_12 lcg (payload_baselines None) 0%Z _ 10 0 Hrun);
    [reflexivity | discriminate | reflexivity | reflexivity].
Defined.

Lemma insufficient_training_data_fallback_witness :
  (Z.of_nat (length (p_training_data payload_low_fallback_sigma))
   < get_or (c_min_samples (p_config payload_low_fallback_sigma)) 25)%Z
  /\ exists r,
       fst (@run_model sqrt_12 lcg payload_low_fallback_sigma 0%Z) = Returns r
       /\ status (model_info r) = "insufficient_training_data"%string
       /\ forecast_high r = option_map Fin (dict_get (p_features payload_low_fallback_sigma) k_baseline_high)
       /\ forecast_low r = option_map Fin (dict_get (p_features payload_low_fallback_sigma) k_baseline_low).
Proof.
  split; [reflexivity|].
  apply (@insufficient_training_data_fallback sqrt_12 lcg payload_low_fallback_sigma 0%Z).
  reflexivity.
Defined.

(** The claim of C5 fails on a fallback result: with no training data the
    reported sigma is the configured fallback 0.5, below the floor 1.5. *)
Lemma fallback_sigma_below_floor :
  exists r,
    fst (@run_model sqrt_12 lcg payload_low_fallback_sigma 0%Z) = Returns r
    /\ sigma_high r = Some (Fin (1 # 2))
    /\ ~ not_below (sigma_high r)
         (Fin (get_or (c_sigma_floor (p_config payload_low_fallback_sigma)) (15 # 10))).
Proof.
  eexists. split; [vm_compute; reflexivity|].
  split; [reflexivity|].
  intros (s & Hs & Hcmp). cbn in Hs. injection Hs as <-.
  vm_compute in Hcmp. discriminate Hcmp.
Qed.

Lemma ok_sigma_not_below_floor_witness :
  exists r,
    fst (@run_model sqrt_12 lcg (payload_baselines None) 0%Z) = Returns r
    /\ status (model_info r) = "ok"%string
    /\ (not_below (sigma_high r) (Fin (15 # 10))
        /\ not_below (sigma_low r) (Fin (15 # 10))
        /\ floored (sigma_high r) (15 # 10)
        /\ floored (sigma_low r) (15 # 10)).
Proof.
  eexists.
  assert (Hrun : fst (@run_model sqrt_12 lcg (payload_baselines None) 0%Z) = Returns _)
    by (vm_compute; reflexivity).
  split; [exact Hrun|].
  split; [reflexivity|].
  apply (proj1 (@ok_sigma_not_below_floor sqrt_12 lcg (payload_baselines None) 0%Z _ Hrun)).
  reflexivity.
Defined.

(** ** C7: where the ridge penalty lands *)

Lemma list_set_length {A : Type} (l : list A) (i : nat) (v : A) :
  length (list_set l i v) = length l.
Proof.
  revert i. induction l as [|h t IH]; intros [|i]; simpl; auto.
Qed.

Lemma nth_list_set_eq {A : Type} (l : list A) (i : nat) (v d : A) :
  (i < length l)%nat -> nth i (list_set l i v) d = v.
Proof.
  revert i. induction l as [|h t IH]; intros [|i] Hi; simpl in *; try lia; auto.
  apply IH. lia.
Qed.

Lemma nth_list_set_neq {A : Type} (l : list A) (i j : nat) (v d : A) :
  i <> j -> nth j (list_set l i v) d = nth j l d.
Proof.
  revert i j. induction l as [|h t IH]; intros [|i] [|j] Hij; simpl; auto; try lia.
Qed.

Lemma diag_step_square (alpha : float) (n : nat) (M : matrix) (i : nat) :
  square n M -> square n (diag_step alpha M i).
Proof.
  intros [Hlen Hrows]. unfold diag_step. split.
  - rewrite list_set_length. exact Hlen.
  - intros r Hr. destruct (Nat.eq_dec i r) as [->|Hne].
    + rewrite nth_list_set_eq by lia. rewrite list_set_length. apply Hrows, Hr.
    + rewrite nth_list_set_neq by exact Hne. apply Hrows, Hr.
Qed.

Lemma entry_diag_step (alpha : float) (n : nat) (M : matrix) (i r c : nat) :
  square n M -> (i < n)%nat ->
  entry (diag_step alpha M i) r c
  = if (r =? i)%nat && (c =? i)%nat then fadd (entry M i i) alpha else entry M r c.
Proof.
  intros [Hlen Hrows] Hi. unfold diag_step, entry, item.
  destruct (Nat.eqb_spec r i) as [->|Hr]; cbn [andb].
  - rewrite nth_list_set_eq by lia.
    destruct (Nat.eqb_spec c i) as [->|Hc].
    + rewrite nth_list_set_eq; [reflexivity|]. rewrite Hrows; lia.
    + rewrite nth_list_set_neq by congruence. reflexivity.
  - rewrite nth_list_set_neq by congruence. reflexivity.
Qed.

Lemma fold_diag_step (alpha : float) (n : nat) (indices : list nat) :
  forall M : matrix,
    square n M -> NoDup indices -> (forall i, In i indices -> (i < n)%nat) ->
    forall r c,
      entry (fold_left (diag_step alpha) indices M) r c
      = if (r =? c)%nat && existsb (Nat.eqb r) indices
        then fadd (entry M r c) alpha else entry M r c.
Proof.
  induction indices as [|i rest IH]; intros M Hsq Hnd Hin r c.
  - cbn [fold_left existsb]. rewrite andb_false_r. reflexivity.
  - cbn [fold_left existsb].
    inversion Hnd as [|? ? Hnotin Hnd']; subst.
    rewrite IH; [| apply diag_step_square, Hsq | exact Hnd'
                 | intros j Hj; apply Hin; right; exact Hj ].
    rewrite (entry_diag_step alpha r c Hsq) by (apply Hin; left; reflexivity).
    destruct (Nat.eqb_spec r c) as [->|Hrc]; cbn [andb]; [|
      destruct (Nat.eqb_spec r i); destruct (Nat.eqb_spec c i); cbn [andb];
      try reflexivity; congruence ].
    destruct (Nat.eqb_spec c i) as [->|Hci]; cbn [andb orb].
    + destruct (existsb (Nat.eqb i) rest) eqn:Ex; [|reflexivity].
      exfalso. apply Hnotin. apply existsb_exists in Ex.
      destruct Ex as (j & Hj & Eij). apply Nat.eqb_eq in Eij. subst j. exact Hj.
    + reflexivity.
Qed.

Lemma existsb_eqb_seq (r n : nat) :
  existsb (Nat.eqb r) (seq 0 n) = (r <? n)%nat.
Proof.
  destruct (Nat.ltb_spec r n) as [Hlt|Hge].
  - apply existsb_exists. exists r. split; [apply in_seq; lia | apply Nat.eqb_refl].
  - destruct (existsb (Nat.eqb r) (seq 0 n)) eqn:Ex; [|reflexivity].
    apply existsb_exists in Ex. destruct Ex as (j & Hj & Erj).
    apply Nat.eqb_eq in Erj. subst j. apply in_seq in Hj. lia.
Qed.

Lemma add_diagonal_entry (alpha : float) (n : nat) (M : matrix) (r c : nat) :
  square n M ->
  entry (add_diagonal M alpha) r c
  = if (r =? c)%nat && (r <? n)%nat then fadd (entry M r c) alpha else entry M r c.
Proof.
  intro Hsq. unfold add_diagonal, range.
  change (fun (M0 : matrix) (i : nat) =>
            list_set M0 i (list_set (nth i M0 []) i (fadd (entry M0 i i) alpha)))
    with (diag_step alpha).
  destruct Hsq as [Hlen Hrows]. rewrite Hlen, Nat.sub_0_r.
  rewrite (@fold_diag_step alpha n (seq 0 n) M (conj Hlen Hrows)).
  - rewrite existsb_eqb_seq. reflexivity.
  - apply seq_NoDup.
  - intros i Hi. apply in_seq in Hi. lia.
Qed.

Lemma fold_min_pos (l : list nat) :
  forall a, (1 <= a)%nat -> Forall (fun x => (1 <= x)%nat) l ->
            (1 <= fold_left Nat.min l a)%nat.
Proof.
  induction l as [|x l IH]; intros a Ha Hl; cbn [fold_left].
  - exact Ha.
  - inversion Hl; subst. apply IH; [lia | assumption].
Qed.

Section Ridge.
Context `{MathLib}.

Lemma matmul_transpose_square (B : matrix) :
  square (length (_transpose B)) (_matmul (_transpose B) B).
Proof.
  unfold _matmul. split.
  - apply length_map.
  - intros r Hr.
    rewrite (nth_indep _ [] (map (fun col => dot (@nil float) col) (_transpose B)))
      by (rewrite length_map; exact Hr).
    rewrite (map_nth (fun row => map (fun col => dot row col) (_transpose B))).
    apply length_map.
Qed.

Lemma design_columns (X : matrix) :
  X <> [] -> (1 <= length (_transpose (design X)))%nat.
Proof.
  intro HX. unfold design.
  destruct X as [|row0 X']; [congruence|].
  cbn [_standardize]. cbv zeta. cbn [map].
  unfold _transpose. rewrite length_map. unfold range. rewrite length_seq, Nat.sub_0_r.
  apply fold_min_pos.
  - cbn [length]. lia.
  - apply Forall_forall. intros x Hx.
    apply in_map_iff in Hx. destruct Hx as (row & <- & Hrow).
    apply in_map_iff in Hrow. destruct Hrow as (row' & <- & _).
    cbn [length]. lia.
Qed.

(** C7, as amended. [_ridge_fit] adds [alpha] to every diagonal entry of
    [XtX], the entry at the bias position 0 included, and leaves the
    entries off the diagonal as they are. *)
Theorem ridge_penalty_on_every_diagonal_entry (X : matrix) (alpha : float) :
  X <> [] ->
  let n := length (gram X) in
  (1 <= n)%nat
  /\ entry (normal_matrix X alpha) 0 0 = fadd (entry (gram X) 0 0) alpha
  /\ forall i j, (i < n)%nat -> (j < n)%nat ->
       entry (normal_matrix X alpha) i j
       = if (i =? j)%nat then fadd (entry (gram X) i j) alpha else entry (gram X) i j.
Proof.
  intros HX n.
  pose proof (matmul_transpose_square (design X)) as Hsq.
  fold (gram X) in Hsq.
  assert (Hn : length (_transpose (design X)) = n).
  { unfold n. symmetry. exact (proj1 Hsq). }
  rewrite Hn in Hsq.
  assert (Hpos : (1 <= n)%nat) by (rewrite <- Hn; apply design_columns, HX).
  split; [exact Hpos|]. split.
  - unfold normal_matrix. rewrite (add_diagonal_entry alpha 0 0 Hsq).
    destruct (Nat.ltb_spec 0 n); [reflexivity | lia].
  - intros i j Hi Hj. unfold normal_matrix.
    rewrite (add_diagonal_entry alpha i j Hsq).
    destruct (Nat.ltb_spec i n); [|lia].
    rewrite andb_true_r. reflexivity.
Qed.

End Ridge.

(** The claim of C7 fails: on three one-feature rows with [alpha = 1.0]
    the entry of the solved matrix at the bias position is 4, the entry of
    [XtX] there is 3. *)
Lemma ridge_penalty_reaches_bias_entry :
  entry (@gram sqrt_12 [[Fin 1]; [Fin 2]; [Fin 3]]) 0 0 = Fin 3
  /\ entry (@normal_matrix sqrt_12 [[Fin 1]; [Fin 2]; [Fin 3]] (Fin 1)) 0 0 = Fin 4
  /\ entry (@normal_matrix sqrt_12 [[Fin 1]; [Fin 2]; [Fin 3]] (Fin 1)) 0 0
     <> entry (@gram sqrt_12 [[Fin 1]; [Fin 2]; [Fin 3]]) 0 0.
Proof.
  split; [vm_compute; reflexivity|].
  split; [vm_compute; reflexivity|].
  vm_compute. discriminate.
Qed.

Lemma ridge_penalty_on_every_diagonal_entry_witness :
  [[Fin 1]; [Fin 2]; [Fin 3]] <> []
  /\ (1 <= length (@gram sqrt_12 [[Fin 1]; [Fin 2]; [Fin 3]]))%nat
  /\ entry (@normal_matrix sqrt_12 [[Fin 1]; [Fin 2]; [Fin 3]] (Fin 1)) 0 0
     = fadd (entry (@gram sqrt_12 [[Fin 1]; [Fin 2]; [Fin 3]]) 0 0) (Fin 1).
Proof.
  assert (HX : [[Fin 1]; [Fin 2]; [Fin 3]] <> (@nil (list float))) by discriminate.
  split; [exact HX|].
  pose proof (@ridge_penalty_on_every_diagonal_entry sqrt_12
                [[Fin 1]; [Fin 2]; [Fin 3]] (Fin 1) HX) as W.
  cbv zeta in W. destruct W as (W1 & W2 & _).
  split; [exact W1 | exact W2].
Defined.

(** ** C8: a vanishing pivot column *)

Section Gauss.
Context `{MathLib}.

Lemma find_pivot_candidate (M : matrix) (i n : nat) :
  (i < n)%nat -> (i <= find_pivot M i n < n)%nat.
Proof.
  intro Hi. unfold find_pivot.
  assert (G : forall l p,
             (i <= p < n)%nat -> (forall r, In r l -> (i <= r < n)%nat) ->
             (i <= fold_left
                     (fun pivot r =>
                        if fgtb (fabs (entry M r i)) (fabs (entry M pivot i))
                        then r else pivot) l p < n)%nat).
  { induction l as [|r l IH]; intros p Hp Hl; cbn [fold_left].
    - exact Hp.
    - apply IH.
      + destruct (fgtb _ _); [apply Hl; left; reflexivity | exact Hp].
      + intros r' Hr'. apply Hl. right. exact Hr'. }
  apply G; [lia|].
  intros r Hr. unfold range in Hr. apply in_seq in Hr. lia.
Qed.

Lemma gauss_loop_app (n : nat) (cols1 cols2 : list nat) :
  forall M,
    gauss_loop n M (cols1 ++ cols2)
    = match gauss_loop n M cols1 with
      | None => None
      | Some M' => gauss_loop n M' cols2
      end.
Proof.
  induction cols1 as [|i cols1 IH]; intro M; cbn [app gauss_loop].
  - reflexivity.
  - destruct (eliminate n M i) as [M'|]; [apply IH | reflexivity].
Qed.

Lemma range_split (i n : nat) :
  (i < n)%nat -> range 0 n = range 0 i ++ i :: range (i + 1) n.
Proof.
  intro Hi. unfold range. rewrite !Nat.sub_0_r.
  replace n with (i + S (n - (i + 1)))%nat at 1 by lia.
  rewrite seq_app. cbn [seq plus]. rewrite Nat.add_1_r. reflexivity.
Qed.

(** C8. Let [M] be the augmented matrix when the elimination reaches
    column [i]. If every candidate pivot row [r >= i] has
    [abs(M[r][i]) < 1e-12] (that is, the largest such magnitude is below
    1e-12), [_gaussian_solve] returns the zero vector of length [n]. *)
Theorem gaussian_solve_singular (A : matrix) (b : list float) (i : nat) (M : matrix) :
  let n := length A in
  (i < n)%nat ->
  gauss_loop n (augmented A b) (range 0 i) = Some M ->
  (forall r, (i <= r < n)%nat -> fltb (fabs (entry M r i)) c_1e_12 = true) ->
  _gaussian_solve A b = repeat (Fin 0) n.
Proof.
  intros n Hi Hreach Hsmall. unfold _gaussian_solve. fold n.
  rewrite (range_split Hi), gauss_loop_app, Hreach.
  cbn [gauss_loop]. unfold eliminate.
  rewrite (Hsmall _ (find_pivot_candidate M Hi)).
  reflexivity.
Qed.

End Gauss.

Lemma gaussian_solve_singular_witness :
  (1 < length [[Fin 1; Fin 2]; [Fin 2; Fin 4]])%nat
  /\ @gauss_loop 2 [[Fin 1; Fin 2; Fin 1]; [Fin 2; Fin 4; Fin 1]] [0%nat]
     = Some [[Fin 1; Fin 2; Fin (1 # 2)]; [Fin 0; Fin 0; Fin (1 # 2)]]
  /\ @_gaussian_solve [[Fin 1; Fin 2]; [Fin 2; Fin 4]] [Fin 1; Fin 1] = [Fin 0; Fin 0].
Proof.
  assert (Hreach :
    gauss_loop (length [[Fin 1; Fin 2]; [Fin 2; Fin 4]])
               (augmented [[Fin 1; Fin 2]; [Fin 2; Fin 4]] [Fin 1; Fin 1]) (range 0 1)
    = Some [[Fin 1; Fin 2; Fin (1 # 2)]; [Fin 0; Fin 0; Fin (1 # 2)]])
    by (vm_compute; reflexivity).
  split; [cbn; lia|]. split; [vm_compute; reflexivity|].
  apply (@gaussian_solve_singular [[Fin 1; Fin 2]; [Fin 2; Fin 4]] [Fin 1; Fin 1] 1%nat
           _ ltac:(cbn; lia) Hreach).
  intros r Hr. cbn in Hr.
  assert (r = 1%nat) as -> by lia.
  vm_compute. reflexivity.
Defined.

(** ** Sums of floats *)

Lemma fold_fadd_nan (l : list float) : fold_left fadd l NaN = NaN.
Proof.
  induction l as [|a l IH]; cbn [fold_left]; [reflexivity | exact IH].
Qed.

Lemma fold_fadd_fin (l : list float) :
  forall c,
    fold_left fadd l (Fin c)
    = match finite_sum l with
      | None => NaN
      | Some s => match l with [] => Fin c | _ => Fin (Qred (c + s)) end
      end.
Proof.
  induction l as [|a l IH]; intro c.
  - reflexivity.
  - cbn [fold_left finite_sum fold_right]. fold (finite_sum l).
    destruct a as [q|].
    + change (fadd (Fin c) (Fin q)) with (Fin (Qred (c + q))).
      rewrite IH. destruct (finite_sum l) as [s|] eqn:Es; [|reflexivity].
      destruct l as [|a' l'].
      * injection Es as <-. f_equal. apply Qred_complete. ring.
      * f_equal. apply Qred_complete. rewrite Qred_correct. ring.
    + change (fadd (Fin c) NaN) with NaN. rewrite fold_fadd_nan.
      destruct (finite_sum l); reflexivity.
Qed.

(** ** What [_prepare_matrix] and the fit see of the training subset *)

Lemma prepare_matrix_cons (s : sample) (l : list sample) (keys : list string)
                          (target_key : string) :
  _prepare_matrix (s :: l) keys target_key
  = if existsb isnan (feature_row s keys)
       || isnan (_safe_float (sample_get s target_key))
    then _prepare_matrix l keys target_key
    else (feature_row s keys :: fst (_prepare_matrix l keys target_key),
          _safe_float (sample_get s target_key) :: snd (_prepare_matrix l keys target_key)).
Proof.
  cbn [_prepare_matrix]. fold (feature_row s keys).
  destruct (_prepare_matrix l keys target_key) as [X y].
  destruct (existsb isnan (feature_row s keys)); cbn [orb]; [reflexivity|].
  destruct (isnan (_safe_float (sample_get s target_key))); reflexivity.
Qed.

Lemma prepare_matrix_app (l1 l2 : list sample) (keys : list string) (target_key : string) :
  _prepare_matrix (l1 ++ l2) keys target_key
  = (fst (_prepare_matrix l1 keys target_key) ++ fst (_prepare_matrix l2 keys target_key),
     snd (_prepare_matrix l1 keys target_key) ++ snd (_prepare_matrix l2 keys target_key)).
Proof.
  induction l1 as [|s l1 IH].
  - cbn [app _prepare_matrix fst snd]. destruct (_prepare_matrix l2 keys target_key).
    reflexivity.
  - rewrite <- app_comm_cons, !prepare_matrix_cons, IH.
    destruct (_ || _); reflexivity.
Qed.

Lemma prepare_matrix_valid (l : list sample) (keys : list string) :
  Forall (fully_valid keys) l ->
  _prepare_matrix l keys k_target_high
    = (map (fun s => feature_row s keys) l, map (fun s => _safe_float (s_target_high s)) l)
  /\ _prepare_matrix l keys k_target_low
    = (map (fun s => feature_row s keys) l, map (fun s => _safe_float (s_target_low s)) l).
Proof.
  induction 1 as [|s l (Hrow & Hhigh & Hlow) _ [IHh IHl]].
  - split; reflexivity.
  - rewrite !prepare_matrix_cons, IHh, IHl.
    change (sample_get s k_target_high) with (s_target_high s).
    change (sample_get s k_target_low) with (s_target_low s).
    rewrite Hrow, Hhigh, Hlow. split; reflexivity.
Qed.

Lemma combine_app_same {A B : Type} (l1 : list A) :
  forall (l1' : list B) (l2 : list A) (l2' : list B),
    length l1 = length l1' ->
    combine (l1 ++ l2) (l1' ++ l2') = combine l1 l1' ++ combine l2 l2'.
Proof.
  induction l1 as [|a l1 IH]; intros [|b l1'] l2 l2' Hlen; simpl in *; try lia.
  - reflexivity.
  - f_equal. apply IH. lia.
Qed.

(** ** C1: when [run_model] raises *)

Lemma list_index_in (keys : list string) (k : string) :
  In k keys -> exists j, list_index keys k = Returns j.
Proof.
  induction keys as [|k' keys IH]; intro Hin; [destruct Hin|].
  cbn [list_index]. destruct (String.eqb_spec k' k) as [->|Hne].
  - exists 0%nat. reflexivity.
  - destruct Hin as [->|Hin]; [congruence|].
    destruct (IH Hin) as (j & ->). exists (S j). reflexivity.
Qed.

Lemma baseline_column_returns (keys : list string) (k : string) (X_calib : matrix) :
  In k keys -> exists col, baseline_column keys k X_calib = Returns col.
Proof.
  intro Hin. unfold baseline_column. destruct X_calib as [|row X'].
  - eexists. reflexivity.
  - destruct (list_index_in keys k Hin) as (j & ->). eexists. reflexivity.
Qed.

(** With the two baseline names among the feature keys (the default keys
    in particular) [run_model] returns a result. *)
Lemma run_model_returns_with_baseline_keys `{MathLib} `{RandomLib}
    (p : payload) (g : rng) :
  In k_baseline_high (effective_keys p) -> In k_baseline_low (effective_keys p) ->
  exists r, fst (run_model p g) = Returns r.
Proof.
  intros Hh Hl. unfold run_model, bind, random_seed, ret. fold (effective_keys p).
  destruct (Z.of_nat (length (p_training_data p)) <? get_or (c_min_samples (p_config p)) 25)%Z.
  { eexists. reflexivity. }
  destruct (_split_data _ _ _) as [[train_set calib_set] g'].
  destruct (training_matrices _ _) as [[X_train y_high_train] y_low_train].
  destruct (_ || _).
  { eexists. reflexivity. }
  destruct (_prepare_matrix _ _ k_target_high) as [X_calib y_high_calib].
  destruct (_prepare_matrix _ _ k_target_low) as [X_calib' y_low_calib].
  destruct (@baseline_column_returns (effective_keys p) _ X_calib Hh) as (bh & ->).
  destruct (@baseline_column_returns (effective_keys p) _ X_calib Hl) as (bl & ->).
  eexists. reflexivity.
Qed.

(* ================================================================== *)
(** * Further properties of the code *)

(** ** Data preparation *)

(** X1. [_prepare_matrix] is a filter: it returns the feature rows and the
    targets of exactly the records whose features and target are all
    numeric, in the order of the input. *)
Theorem prepare_matrix_keeps_usable_in_order
    (samples : list sample) (keys : list string) (target_key : string) :
  _prepare_matrix samples keys target_key
  = (map (fun s => feature_row s keys) (filter (usable keys target_key) samples),
     map (fun s => _safe_float (sample_get s target_key))
         (filter (usable keys target_key) samples)).
Proof.
  induction samples as [|s samples IH]; [reflexivity|].
  rewrite prepare_matrix_cons, IH. cbn [filter fst snd].
  assert (Eu : usable keys target_key s
               = negb (existsb isnan (feature_row s keys)
                       || isnan (_safe_float (sample_get s target_key))))
    by (unfold usable; rewrite negb_orb; reflexivity).
  rewrite Eu. destruct (_ || _); reflexivity.
Qed.

(** X2. The two lists [_prepare_matrix] returns are parallel, no longer
    than the input, every row has one entry per feature key, and neither
    a row nor the target list holds a NaN. *)
Theorem prepare_matrix_rows_numeric
    (samples : list sample) (keys : list string) (target_key : string) :
  let X := fst (_prepare_matrix samples keys target_key) in
  let y := snd (_prepare_matrix samples keys target_key) in
  length X = length y
  /\ (length X <= length samples)%nat
  /\ Forall (fun row => length row = length keys /\ existsb isnan row = false) X
  /\ existsb isnan y = false.
Proof.
  induction samples as [|s samples IH]; cbv zeta.
  - cbn. repeat split; [lia | constructor].
  - cbv zeta in IH. destruct IH as (Hlen & Hle & Hrows & Hy).
    rewrite prepare_matrix_cons.
    destruct (existsb isnan (feature_row s keys)) eqn:Er; cbn [orb].
    + repeat split; try assumption. cbn [length]. lia.
    + destruct (isnan (_safe_float (sample_get s target_key))) eqn:Et.
      * repeat split; try assumption. cbn [length]. lia.
      * cbn [fst snd length existsb]. rewrite Et, Hy.
        repeat split; try lia.
        constructor; [|exact Hrows].
        split; [unfold feature_row; apply length_map | exact Er].
Qed.

(** ** Train/calibration split *)

Lemma split_cut_positive (n : nat) (split : Q) : (1 <= split_cut n split)%Z.
Proof.
  unfold split_cut. destruct (Double.mul _ _); lia.
Qed.

Lemma list_set_replaces {A : Type} (x : list A) :
  forall i a v, nth_error x i = Some a -> Permutation (v :: x) (a :: list_set x i v).
Proof.
  induction x as [|h t IH]; intros [|i] a v Hi; cbn in Hi; try discriminate.
  - injection Hi as ->. cbn [list_set]. apply perm_swap.
  - cbn [list_set].
    eapply Permutation_trans; [apply perm_swap|].
    eapply Permutation_trans; [apply perm_skip, (@IH i a v Hi)|].
    apply perm_swap.
Qed.

Lemma nth_error_list_set {A : Type} (x : list A) :
  forall i j v b,
    nth_error x j = Some b ->
    nth_error (list_set x i v) j = Some (if (i =? j)%nat then v else b).
Proof.
  induction x as [|h t IH]; intros [|i] [|j] v b Hj; cbn in Hj |- *; try discriminate;
    try exact Hj.
  - reflexivity.
  - apply IH. exact Hj.
Qed.

Lemma swap_perm {A : Type} (x : list A) (i j : nat) : Permutation (swap x i j) x.
Proof.
  unfold swap.
  destruct (nth_error x i) as [a|] eqn:Ei; [|apply Permutation_refl].
  destruct (nth_error x j) as [b|] eqn:Ej; [|apply Permutation_refl].
  pose proof (@list_set_replaces A x i a b Ei) as P1.
  pose proof (@nth_error_list_set A x i j b b Ej) as Ej'.
  assert (Ej'' : nth_error (list_set x i b) j = Some b)
    by (rewrite Ej'; destruct (i =? j)%nat; reflexivity).
  pose proof (@list_set_replaces A (list_set x i b) j b a Ej'') as P2.
  apply Permutation_sym.
  apply (Permutation_cons_inv (a := b)).
  eapply Permutation_trans; [exact P1 | exact P2].
Qed.

Section Split.
Context `{RandomLib}.

Lemma shuffle_from_perm {A : Type} (indices : list nat) :
  forall (x : list A) (g : rng), Permutation (fst (shuffle_from x indices g)) x.
Proof.
  induction indices as [|i rest IH]; intros x g; cbn [shuffle_from].
  - apply Permutation_refl.
  - unfold bind, randbelow. destruct (rng_randbelow g (i + 1)) as [j g'].
    eapply Permutation_trans; [apply IH | apply swap_perm].
Qed.

(** X3. [_split_data] partitions the records: training and calibration
    subsets together are a permutation of the input, whatever the
    generator draws; the training subset is empty only for empty input,
    and empty input leaves the generator untouched. *)
Theorem split_data_partitions (data : list sample) (split : Q) (g : rng) :
  let train := fst (fst (_split_data data split g)) in
  let calib := snd (fst (_split_data data split g)) in
  Permutation (train ++ calib) data
  /\ (train = [] <-> data = [])
  /\ (data = [] -> snd (_split_data data split g) = g).
Proof.
  cbv zeta. destruct data as [|s data].
  - cbn. repeat split; auto.
  - unfold _split_data, bind, ret.
    destruct (random_shuffle (s :: data) g) as [data_copy g'] eqn:Es.
    cbn [fst snd].
    assert (P : Permutation data_copy (s :: data)).
    { pose proof (shuffle_from_perm (rev (range 1 (length (s :: data)))) (s :: data) g) as P.
      unfold random_shuffle in Es. rewrite Es in P. exact P. }
    split; [rewrite firstn_skipn; exact P|].
    split; [|discriminate].
    split; [|discriminate].
    intro Hnil. exfalso.
    destruct data_copy as [|d rest].
    + apply Permutation_nil in P. discriminate P.
    + pose proof (split_cut_positive (length (d :: rest)) split) as Hpos.
      assert (Hcut : exists k, Z.to_nat (split_cut (length (d :: rest)) split) = S k).
      { exists (Nat.pred (Z.to_nat (split_cut (length (d :: rest)) split))). lia. }
      destruct Hcut as (k & Hk). rewrite Hk in Hnil. discriminate Hnil.
Qed.

End Split.

(** ** Linear solver *)

Lemma enumerate_length {A : Type} (l : list A) : length (enumerate l) = length l.
Proof.
  unfold enumerate. rewrite length_combine, length_seq. apply Nat.min_id.
Qed.

Lemma eliminate_length (n : nat) (M M' : matrix) (i : nat) :
  eliminate n M i = Some M' -> length M' = length M.
Proof.
  unfold eliminate.
  destruct (fltb _ _); [discriminate|].
  intros [= <-]. rewrite length_map, enumerate_length, list_set_length.
  destruct (_ =? _)%nat; [reflexivity|]. rewrite !list_set_length. reflexivity.
Qed.

Lemma gauss_loop_length (n : nat) (cols : list nat) :
  forall M M', gauss_loop n M cols = Some M' -> length M' = length M.
Proof.
  induction cols as [|i rest IH]; intros M M'; cbn [gauss_loop].
  - intros [= <-]. reflexivity.
  - destruct (eliminate n M i) as [M1|] eqn:E; [|discriminate].
    intro Hloop. rewrite (IH _ _ Hloop). exact (@eliminate_length n M M1 i E).
Qed.

(** X4. [_gaussian_solve] returns one value per row of [A], on the
    singular exit and on the regular one alike. *)
Theorem gaussian_solve_length (A : matrix) (b : list float) :
  length (_gaussian_solve A b) = length A.
Proof.
  unfold _gaussian_solve.
  destruct (gauss_loop (length A) (augmented A b) (range 0 (length A))) as [M|] eqn:E.
  - rewrite length_map, (@gauss_loop_length _ _ _ _ E).
    unfold augmented. rewrite length_map. apply enumerate_length.
  - apply repeat_length.
Qed.

(** ** Clipping *)

(** X5. For a non-negative [clip_delta], [_clip] leaves a value strictly
    inside the interval unchanged, sends a value at or above the upper
    bound to [baseline + clip_delta] and a value at or below the lower
    bound to [baseline - clip_delta]; a NaN value comes out as the upper
    bound, because [min(upper, nan)] keeps [upper]. *)
Theorem clip_cases (b d : Q) :
  0 <= d ->
  (forall v, b - d < v < b + d -> _clip (Fin v) (Fin b) (Fin d) = Fin v)
  /\ (forall v, b + d <= v -> _clip (Fin v) (Fin b) (Fin d) = fadd (Fin b) (Fin d))
  /\ (forall v, v <= b - d -> _clip (Fin v) (Fin b) (Fin d) = fsub (Fin b) (Fin d))
  /\ _clip NaN (Fin b) (Fin d) = fadd (Fin b) (Fin d).
Proof.
  intro Hd. unfold _clip, pymax, pymin, fgtb, fsub, fadd, lift2. cbv zeta.
  assert (Hlo : Qred (b - d) == b - d) by apply Qred_correct.
  assert (Hhi : Qred (b + d) == b + d) by apply Qred_correct.
  assert (Hsame : Qred (b + d) <= Qred (b - d) -> Qred (b - d) = Qred (b + d)).
  { intro E. apply Qred_complete. lra. }
  assert (Hupper : (if Qltb (Qred (b - d)) (Qred (b + d))
                    then Fin (Qred (b + d)) else Fin (Qred (b - d)))
                   = Fin (Qred (b + d))).
  { destruct (Qltb (Qred (b - d)) (Qred (b + d))) eqn:E; [reflexivity|].
    apply Qltb_ge in E. rewrite (Hsame E). reflexivity. }
  split; [|split; [|split]].
  - intros v [Hl Hu]. cbn [fltb].
    assert (E1 : Qltb v (Qred (b + d)) = true) by (apply Qltb_lt; lra).
    rewrite E1. cbn [fltb].
    assert (E2 : Qltb (Qred (b - d)) v = true) by (apply Qltb_lt; lra).
    rewrite E2. reflexivity.
  - intros v Hv. cbn [fltb].
    assert (E1 : Qltb v (Qred (b + d)) = false) by (apply Qltb_ge; lra).
    rewrite E1. cbn [fltb]. exact Hupper.
  - intros v Hv. cbn [fltb].
    destruct (Qltb v (Qred (b + d))) eqn:E1; cbn [fltb].
    + assert (E2 : Qltb (Qred (b - d)) v = false) by (apply Qltb_ge; lra).
      rewrite E2. reflexivity.
    + destruct (Qltb (Qred (b - d)) (Qred (b + d))) eqn:E2; [|reflexivity].
      apply Qltb_ge in E1. apply Qltb_lt in E2. lra.
  - cbn [fltb]. exact Hupper.
Qed.

Lemma clip_cases_witness :
  0 <= 12
  /\ _clip (Fin 15) (Fin 10) (Fin 12) = Fin 15
  /\ _clip (Fin 40) (Fin 10) (Fin 12) = Fin 22
  /\ _clip (Fin (-9)) (Fin 10) (Fin 12) = Fin (-2)
  /\ _clip NaN (Fin 10) (Fin 12) = Fin 22.
Proof.
  assert (Hd : 0 <= 12) by discriminate.
  destruct (@clip_cases 10 12 Hd) as (Hin & Hup & Hlow & Hnan).
  split; [exact Hd|].
  split; [apply Hin; split; reflexivity|].
  split; [apply (Hup 40); discriminate|].
  split; [apply (Hlow (-9)); discriminate | exact Hnan].
Defined.

(** ** Ensemble weights *)

Lemma floor_rmse_monotone (x y : float) :
  fltb x y = true ->
  exists a c, floor_rmse x = Fin a /\ floor_rmse y = Fin c /\ a <= c.
Proof.
  destruct x as [a|], y as [c|]; cbn [fltb]; try discriminate.
  intro Hlt. apply Qltb_lt in Hlt.
  unfold floor_rmse, fgtb, c_1e_6. cbn [fltb].
  destruct (Qltb (1 # 1000000) a) eqn:Ea; destruct (Qltb (1 # 1000000) c) eqn:Ec;
    eexists _, _; (split; [reflexivity|]); (split; [reflexivity|]).
  - lra.
  - apply Qltb_lt in Ea. apply Qltb_ge in Ec. lra.
  - apply Qltb_lt in Ec. lra.
  - lra.
Qed.

Lemma inverse_share_monotone (a c t : Q) :
  (1 # 1000000) <= a -> a <= c -> 0 < t ->
  Qred (Qred (inject_Z 1 / c) / t) <= Qred (Qred (inject_Z 1 / a) / t).
Proof.
  intros Ha Hac Ht. rewrite !Qred_correct.
  assert (Pa : 0 < a) by lra.
  assert (Pc : 0 < c) by lra.
  assert (It : 0 < / t) by (apply Qinv_lt_0_compat; exact Ht).
  unfold Qdiv. apply Qmult_le_compat_r; [|lra].
  unfold inject_Z. rewrite !Qmult_1_l.
  apply Qle_shift_inv_l; [exact Pa|].
  setoid_replace (/ c * a) with (a / c) by (field; lra).
  apply Qle_shift_div_r; [exact Pc | lra].
Qed.

Section Weights.
Context `{MathLib}.

(** X6. The predictor with the smaller calibration RMSE never gets the
    smaller weight: this holds for each of the three pairs of
    predictors. *)
Theorem calc_weights_favours_lower_rmse
    (y_true base_pred ridge_pred knn_pred : list float) :
  exists wb wr wk : Q,
    _calc_weights y_true base_pred ridge_pred knn_pred
      = {| baseline := Fin wb; ridge := Fin wr; knn := Fin wk |}
    /\ (fltb (_rmse y_true base_pred) (_rmse y_true ridge_pred) = true -> wr <= wb)
    /\ (fltb (_rmse y_true ridge_pred) (_rmse y_true base_pred) = true -> wb <= wr)
    /\ (fltb (_rmse y_true base_pred) (_rmse y_true knn_pred) = true -> wk <= wb)
    /\ (fltb (_rmse y_true knn_pred) (_rmse y_true base_pred) = true -> wb <= wk)
    /\ (fltb (_rmse y_true ridge_pred) (_rmse y_true knn_pred) = true -> wk <= wr)
    /\ (fltb (_rmse y_true knn_pred) (_rmse y_true ridge_pred) = true -> wr <= wk).
Proof.
  unfold _calc_weights.
  set (x0 := _rmse y_true base_pred).
  set (x1 := _rmse y_true ridge_pred).
  set (x2 := _rmse y_true knn_pred).
  destruct (floor_rmse_finite x0) as (r0 & E0 & H0).
  destruct (floor_rmse_finite x1) as (r1 & E1 & H1).
  destruct (floor_rmse_finite x2) as (r2 & E2 & H2).
  assert (M : forall x y a c, floor_rmse x = Fin a -> floor_rmse y = Fin c ->
                              fltb x y = true -> a <= c).
  { intros x y a c Ea Ec Hlt.
    destruct (floor_rmse_monotone x y Hlt) as (a' & c' & Ea' & Ec' & Hle).
    rewrite Ea in Ea'. rewrite Ec in Ec'.
    injection Ea' as <-. injection Ec' as <-. exact Hle. }
  rewrite E0, E1, E2.
  cbv zeta. unfold fsum, of_int, fdiv, fadd, lift2. cbn [fold_left].
  set (t := Qred (Qred (Qred (inject_Z 0 + Qred (inject_Z 1 / r0))
                        + Qred (inject_Z 1 / r1)) + Qred (inject_Z 1 / r2))).
  assert (Pt : 0 < t).
  { unfold t. rewrite !Qred_correct.
    assert (0 < / r0) by (apply Qinv_lt_0_compat; lra).
    assert (0 < / r1) by (apply Qinv_lt_0_compat; lra).
    assert (0 < / r2) by (apply Qinv_lt_0_compat; lra).
    unfold inject_Z, Qdiv. rewrite !Qmult_1_l. lra. }
  eexists _, _, _. split; [reflexivity|].
  repeat split; intro Hlt; apply inverse_share_monotone; try assumption;
    eapply M; eassumption.
Qed.

End Weights.

(** ** Orchestrator *)

Lemma prepare_matrix_lengths (samples : list sample) (keys : list string)
                             (target_key : string) :
  length (fst (_prepare_matrix samples keys target_key))
  = length (snd (_prepare_matrix samples keys target_key))
  /\ (length (fst (_prepare_matrix samples keys target_key)) <= length samples)%nat.
Proof.
  induction samples as [|s samples [IH1 IH2]]; [cbn; lia|].
  rewrite prepare_matrix_cons.
  destruct (_ || _); cbn [fst snd length]; lia.
Qed.

Section OrchestratorFacts.
Context `{MathLib} `{RandomLib}.

Lemma training_subset_length (p : payload) :
  (length (training_subset p) <= length (p_training_data p))%nat.
Proof.
  unfold training_subset.
  set (data := p_training_data p).
  set (split := get_or (c_calibration_split (p_config p)) (2 # 10)).
  set (g := rng_seeded (get_or (c_seed (p_config p)) 42%Z)).
  destruct data as [|s data]; [cbn; lia|].
  unfold _split_data, bind, ret.
  destruct (random_shuffle (s :: data) g) as [data_copy g'] eqn:Es.
  cbn [fst].
  pose proof (@shuffle_from_perm _ sample (rev (range 1 (length (s :: data))))
                (s :: data) g) as P.
  unfold random_shuffle in Es. rewrite Es in P. cbn [fst] in P.
  rewrite <- (Permutation_length P). rewrite length_firstn. lia.
Qed.

Lemma ensemble_ok_inv cfg features feature_keys ridge_alpha knn_k clip_delta sigma_floor
    X_train model_high model_low X_calib X_calib_std y_high_calib y_low_calib
    baseline_high baseline_low :
  let r := ensemble cfg features feature_keys ridge_alpha knn_k clip_delta sigma_floor
             X_train model_high model_low X_calib X_calib_std y_high_calib y_low_calib
             baseline_high baseline_low in
  status (model_info r) = "ok"%string ->
  existsb isnan (map (fun k => _safe_float (dict_get features k)) feature_keys) = false
  /\ exists wh wl, model_info r = StatusOk (length X_train) wh wl ridge_alpha knn_k.
Proof.
  cbv zeta. unfold ensemble.
  destruct (existsb isnan (map (fun k => _safe_float (dict_get features k)) feature_keys)).
  - cbn. discriminate.
  - intros _. split; [reflexivity|]. cbv zeta. cbn [model_info].
    eexists _, _. reflexivity.
Qed.

Lemma run_model_ok_inv (p : payload) (g : rng) (r : result) :
  fst (run_model p g) = Returns r ->
  status (model_info r) = "ok"%string ->
  (get_or (c_min_samples (p_config p)) 25 <= Z.of_nat (length (p_training_data p)))%Z
  /\ exists X_train y_high_train y_low_train,
       training_matrices (training_subset p) (effective_keys p)
       = (X_train, y_high_train, y_low_train)
       /\ X_train <> []
       /\ (get_or (c_min_samples (p_config p)) 25 <= Z.of_nat (length y_high_train))%Z
       /\ exists Xc Xcs yh yl bh bl,
            r = ensemble (p_config p) (p_features p) (effective_keys p)
                  (effective_alpha p) (get_or (c_knn_k (p_config p)) 7%Z)
                  (Fin (get_or (c_clip_delta (p_config p)) 12))
                  (Fin (get_or (c_sigma_floor (p_config p)) (15 # 10)))
                  X_train
                  (_ridge_fit X_train y_high_train (effective_alpha p))
                  (_ridge_fit X_train y_low_train (effective_alpha p))
                  Xc Xcs yh yl bh bl.
Proof.
  unfold run_model, bind, random_seed, ret, training_subset.
  fold (effective_keys p) (effective_alpha p).
  destruct (Z.of_nat (length (p_training_data p)) <? get_or (c_min_samples (p_config p)) 25)%Z
    eqn:Emin.
  { cbn [fst]. intros [= <-] Hok. discriminate Hok. }
  apply Z.ltb_ge in Emin.
  destruct (_split_data _ _ _) as [[train_set calib_set] g'].
  cbn [fst].
  destruct (training_matrices train_set _) as [[X_train y_high_train] y_low_train].
  destruct (Z.of_nat (length y_high_train) <? get_or (c_min_samples (p_config p)) 25)%Z
    eqn:Eflt.
  { rewrite orb_true_r. intros [= <-] Hok. discriminate Hok. }
  apply Z.ltb_ge in Eflt. rewrite orb_false_r.
  destruct X_train as [|row X_rest].
  { intros [= <-] Hok. discriminate Hok. }
  destruct (_prepare_matrix _ _ k_target_high) as [X_calib y_high_calib].
  destruct (_prepare_matrix _ _ k_target_low) as [X_calib' y_low_calib].
  destruct (baseline_column _ k_baseline_high X_calib) as [bh|e].
  2:{ discriminate. }
  destruct (baseline_column _ k_baseline_low X_calib) as [bl|e].
  2:{ discriminate. }
  intros [= <-] _.
  split; [exact Emin|].
  do 3 eexists. split; [reflexivity|]. split; [discriminate|]. split; [exact Eflt|].
  do 6 eexists. reflexivity.
Qed.

(** X9. Every result that is not ok is the untouched fallback: the two
    forecasts are the current [baseline_high] and [baseline_low] features
    as given (null when absent), both sigmas are the configured
    [sigma_fallback] (null when absent), and the status is one of the
    three fallback statuses. *)
Theorem non_ok_result_is_fallback (p : payload) (g : rng) (r : result) :
  fst (run_model p g) = Returns r ->
  status (model_info r) <> "ok"%string ->
  forecast_high r = option_map Fin (dict_get (p_features p) k_baseline_high)
  /\ forecast_low r = option_map Fin (dict_get (p_features p) k_baseline_low)
  /\ sigma_high r = option_map Fin (c_sigma_fallback (p_config p))
  /\ sigma_low r = option_map Fin (c_sigma_fallback (p_config p))
  /\ (status (model_info r) = "insufficient_training_data"%string
      \/ status (model_info r) = "training_filtered"%string
      \/ status (model_info r) = "invalid_features"%string).
Proof.
  intros Hrun Hnok.
  destruct (run_model_cases p g) as [(n & E) | [(n & E) | [(e & E) | E]]].
  - rewrite E in Hrun. injection Hrun as <-. cbn. auto 10.
  - rewrite E in Hrun. injection Hrun as <-. cbn. auto 10.
  - rewrite E in Hrun. discriminate Hrun.
  - destruct E as (keys & a & k & Xt & mh & ml & Xc & Xcs & yh & yl & cbh & cbl & E).
    rewrite E in Hrun. injection Hrun as Er.
    pose proof (ensemble_cases (p_config p) (p_features p) keys a k
                  (Fin (get_or (c_clip_delta (p_config p)) 12))
                  (Fin (get_or (c_sigma_floor (p_config p)) (15 # 10)))
                  Xt mh ml Xc Xcs yh yl cbh cbl) as C.
    cbv zeta in C. rewrite Er in C.
    destruct C as [-> | (vh & vl & rh & rl & wh & wl & _ & _ & _ & _ & Hinfo)].
    + cbn. auto 10.
    + exfalso. apply Hnok. rewrite Hinfo. reflexivity.
Qed.

(** X10. An ok result is only returned when the payload has at least
    [min_samples] training records, every feature key has a numeric value
    among the current features, and the number of usable training rows it
    reports as [samples] is at least one, at least [min_samples] and at
    most the number of training records; it also echoes the configured
    [ridge_alpha] and [knn_k]. *)
Theorem ok_result_requirements (p : payload) (g : rng) (r : result) :
  fst (run_model p g) = Returns r ->
  status (model_info r) = "ok"%string ->
  (get_or (c_min_samples (p_config p)) 25 <= Z.of_nat (length (p_training_data p)))%Z
  /\ (forall k, In k (effective_keys p) -> exists q, dict_get (p_features p) k = Some q)
  /\ exists n wh wl,
       model_info r = StatusOk n wh wl (effective_alpha p) (get_or (c_knn_k (p_config p)) 7%Z)
       /\ (1 <= n)%nat
       /\ (get_or (c_min_samples (p_config p)) 25 <= Z.of_nat n)%Z
       /\ (n <= length (p_training_data p))%nat.
Proof.
  intros Hrun Hok.
  destruct (run_model_ok_inv p g Hrun Hok)
    as (Hmin & X_train & yh_t & yl_t & Etm & Hne & Hflt & Hens).
  destruct Hens as (Xc & Xcs & yh & yl & bh & bl & Er).
  split; [exact Hmin|].
  pose proof (ensemble_ok_inv (p_config p) (p_features p) (effective_keys p)
                (effective_alpha p) (get_or (c_knn_k (p_config p)) 7%Z)
                (Fin (get_or (c_clip_delta (p_config p)) 12))
                (Fin (get_or (c_sigma_floor (p_config p)) (15 # 10)))
                X_train
                (_ridge_fit X_train yh_t (effective_alpha p))
                (_ridge_fit X_train yl_t (effective_alpha p))
                Xc Xcs yh yl bh bl) as C.
  cbv zeta in C. rewrite <- Er in C. destruct (C Hok) as (Hfeat & wh & wl & Hinfo).
  split.
  - intros k Hk.
    destruct (dict_get (p_features p) k) as [q|] eqn:Ek; [exists q; reflexivity|].
    exfalso.
    assert (Hex : existsb isnan
                    (map (fun k0 => _safe_float (dict_get (p_features p) k0))
                         (effective_keys p)) = true).
    { apply existsb_exists. exists NaN. split; [|reflexivity].
      apply in_map_iff. exists k. split; [rewrite Ek; reflexivity | exact Hk]. }
    congruence.
  - exists (length X_train), wh, wl. split; [exact Hinfo|].
    unfold training_matrices in Etm.
    pose proof (prepare_matrix_lengths (training_subset p) (effective_keys p)
                  k_target_high) as [L1 L2].
    destruct (_prepare_matrix (training_subset p) (effective_keys p) k_target_high)
      as [X0 y0].
    destruct (_prepare_matrix (training_subset p) (effective_keys p) k_target_low)
      as [X1 y1].
    injection Etm as -> -> _. cbn [fst snd] in L1, L2.
    pose proof (training_subset_length p) as L3.
    split; [destruct X_train; [congruence | cbn [length]; lia]|].
    split; [rewrite L1; exact Hflt | lia].
Qed.

End OrchestratorFacts.

Lemma non_ok_result_is_fallback_witness :
  exists r,
    fst (@run_model sqrt_12 lcg payload_low_fallback_sigma 0%Z) = Returns r
    /\ status (model_info r) <> "ok"%string
    /\ forecast_high r = Some (Fin 10)
    /\ sigma_high r = Some (Fin (1 # 2)).
Proof.
  eexists.
  assert (Hrun : fst (@run_model sqrt_12 lcg payload_low_fallback_sigma 0%Z) = Returns _)
    by (vm_compute; reflexivity).
  split; [exact Hrun|].
  match type of Hrun with
  | _ = Returns ?r0 =>
    assert (Hnok : status (model_info r0) <> "ok"%string) by (cbn; discriminate)
  end.
  split; [exact Hnok|].
  destruct (@non_ok_result_is_fallback sqrt_12 lcg payload_low_fallback_sigma 0%Z _
              Hrun Hnok) as (Hfh & _ & Hsh & _).
  split; [exact Hfh | exact Hsh].
Defined.

Lemma ok_result_requirements_witness :
  exists r,
    fst (@run_model sqrt_12 lcg payload_missing_low 0%Z) = Returns r
    /\ status (model_info r) = "ok"%string
    /\ (1 <= Z.of_nat (length (p_training_data payload_missing_low)))%Z
    /\ (forall k, In k (effective_keys payload_missing_low) ->
                  exists q, dict_get (p_features payload_missing_low) k = Some q).
Proof.
  eexists.
  assert (Hrun : fst (@run_model sqrt_12 lcg payload_missing_low 0%Z) = Returns _)
    by (vm_compute; reflexivity).
  split; [exact Hrun|].
  match type of Hrun with
  | _ = Returns ?r0 =>
    assert (Hok : status (model_info r0) = "ok"%string) by reflexivity
  end.
  split; [exact Hok|].
  destruct (@ok_result_requirements sqrt_12 lcg payload_missing_low 0%Z _ Hrun Hok)
    as (Hmin & Hfeat & _).
  split; [exact Hmin | exact Hfeat].
Defined.

(** ** Transpose *)

Lemma fold_min_const (c : nat) (l : list nat) :
  Forall (fun x => x = c) l -> fold_left Nat.min l c = c.
Proof.
  induction 1 as [|x l -> _ IH]; cbn [fold_left]; [reflexivity|].
  rewrite Nat.min_id. exact IH.
Qed.

Lemma item_nil (j : nat) : item [] j = NaN.
Proof. destruct j; reflexivity. Qed.

Lemma item_map_rows (f : list float -> float) (M : matrix) (i : nat) :
  f [] = NaN -> item (map f M) i = f (nth i M []).
Proof.
  intro Hf. unfold item. rewrite <- Hf at 1. apply map_nth.
Qed.

Lemma nth_map_seq {A : Type} (f : nat -> A) (n j : nat) (d : A) :
  (j < n)%nat -> nth j (map f (seq 0 n)) d = f j.
Proof.
  intro Hj.
  rewrite (nth_indep _ d (f 0%nat)) by (rewrite length_map, length_seq; exact Hj).
  rewrite map_nth, seq_nth by exact Hj. reflexivity.
Qed.

Lemma transpose_rect (M : matrix) (c : nat) :
  M <> [] -> Forall (fun row => length row = c) M ->
  _transpose M = map (fun j => map (fun row => item row j) M) (seq 0 c).
Proof.
  intros Hne Hrect. destruct M as [|r rs]; [congruence|].
  unfold _transpose, range. rewrite Nat.sub_0_r.
  inversion Hrect as [|? ? Hr Hrs]; subst.
  rewrite fold_min_const; [reflexivity|].
  apply Forall_forall. intros x Hx. apply in_map_iff in Hx.
  destruct Hx as (row & <- & Hrow).
  rewrite Forall_forall in Hrs. apply Hrs, Hrow.
Qed.

Lemma transpose_entry (M : matrix) (c i j : nat) :
  M <> [] -> Forall (fun row => length row = c) M ->
  (j < c)%nat ->
  entry (_transpose M) j i = entry M i j.
Proof.
  intros Hne Hrect Hj. rewrite (@transpose_rect M c Hne Hrect).
  unfold entry. rewrite nth_map_seq by exact Hj.
  apply (item_map_rows (fun row => item row j)). apply item_nil.
Qed.

Lemma transpose_rows (M : matrix) (c : nat) :
  M <> [] -> Forall (fun row => length row = c) M ->
  length (_transpose M) = c
  /\ Forall (fun col => length col = length M) (_transpose M).
Proof.
  intros Hne Hrect. rewrite (@transpose_rect M c Hne Hrect). split.
  - rewrite length_map. apply length_seq.
  - apply Forall_forall. intros col Hcol. apply in_map_iff in Hcol.
    destruct Hcol as (j & <- & _). apply length_map.
Qed.

(** X12. For a non-empty matrix whose rows all have [c] entries,
    [_transpose] returns [c] rows, each with one entry per row of the
    input, and the entry at [(j, i)] is the input's entry at [(i, j)]. *)
Theorem transpose_swaps_entries (M : matrix) (c : nat) :
  M <> [] -> Forall (fun row => length row = c) M ->
  length (_transpose M) = c
  /\ Forall (fun col => length col = length M) (_transpose M)
  /\ forall i j, (j < c)%nat -> entry (_transpose M) j i = entry M i j.
Proof.
  intros Hne Hrect.
  destruct (@transpose_rows M c Hne Hrect) as [Hlen Hcols].
  split; [exact Hlen|]. split; [exact Hcols|].
  intros i j Hj. apply (@transpose_entry M c i j Hne Hrect Hj).
Qed.

(** X13. Transposing twice gives the matrix back, for a non-empty matrix
    whose rows all have the same positive number of entries. *)
Theorem transpose_involutive (M : matrix) (c : nat) :
  M <> [] -> (1 <= c)%nat -> Forall (fun row => length row = c) M ->
  _transpose (_transpose M) = M.
Proof.
  intros Hne Hc Hrect.
  destruct (@transpose_rows M c Hne Hrect) as [HlenT HcolsT].
  assert (HneT : _transpose M <> []).
  { intro E. rewrite E in HlenT. cbn in HlenT. lia. }
  destruct (@transpose_rows (_transpose M) (length M) HneT HcolsT) as [HlenTT HrowsTT].
  apply (nth_ext _ _ [] []); [exact HlenTT|].
  intros i Hi. rewrite HlenTT in Hi.
  assert (Hrow_i : length (nth i M []) = c).
  { rewrite Forall_forall in Hrect. apply Hrect. apply nth_In. exact Hi. }
  assert (HrowT_i : length (nth i (_transpose (_transpose M)) []) = c).
  { rewrite Forall_forall in HrowsTT. rewrite (HrowsTT (nth i (_transpose (_transpose M)) [])).
    - exact HlenT.
    - apply nth_In. rewrite HlenTT. exact Hi. }
  apply (nth_ext _ _ NaN NaN); [rewrite HrowT_i, Hrow_i; reflexivity|].
  intros j Hj. rewrite HrowT_i in Hj.
  change (entry (_transpose (_transpose M)) i j = entry M i j).
  rewrite (@transpose_entry (_transpose M) (length M) j i HneT HcolsT Hi).
  apply (@transpose_entry M c i j Hne Hrect Hj).
Qed.

Lemma transpose_swaps_entries_witness :
  [[Fin 1; Fin 2; Fin 3]; [Fin 4; Fin 5; Fin 6]] <> []
  /\ Forall (fun row : list float => length row = 3%nat)
            [[Fin 1; Fin 2; Fin 3]; [Fin 4; Fin 5; Fin 6]]
  /\ length (_transpose [[Fin 1; Fin 2; Fin 3]; [Fin 4; Fin 5; Fin 6]]) = 3%nat.
Proof.
  assert (Hne : [[Fin 1; Fin 2; Fin 3]; [Fin 4; Fin 5; Fin 6]] <> (@nil (list float)))
    by discriminate.
  assert (Hrect : Forall (fun row : list float => length row = 3%nat)
                         [[Fin 1; Fin 2; Fin 3]; [Fin 4; Fin 5; Fin 6]])
    by (repeat constructor).
  split; [exact Hne|]. split; [exact Hrect|].
  exact (proj1 (@transpose_swaps_entries _ 3%nat Hne Hrect)).
Defined.

Lemma transpose_involutive_witness :
  [[Fin 1; Fin 2; Fin 3]; [Fin 4; Fin 5; Fin 6]] <> []
  /\ (1 <= 3)%nat
  /\ Forall (fun row : list float => length row = 3%nat)
            [[Fin 1; Fin 2; Fin 3]; [Fin 4; Fin 5; Fin 6]]
  /\ _transpose (_transpose [[Fin 1; Fin 2; Fin 3]; [Fin 4; Fin 5; Fin 6]])
     = [[Fin 1; Fin 2; Fin 3]; [Fin 4; Fin 5; Fin 6]].
Proof.
  assert (Hne : [[Fin 1; Fin 2; Fin 3]; [Fin 4; Fin 5; Fin 6]] <> (@nil (list float)))
    by discriminate.
  assert (Hc : (1 <= 3)%nat) by lia.
  assert (Hrect : Forall (fun row : list float => length row = 3%nat)
                         [[Fin 1; Fin 2; Fin 3]; [Fin 4; Fin 5; Fin 6]])
    by (repeat constructor).
  split; [exact Hne|]. split; [exact Hc|]. split; [exact Hrect|].
  exact (@transpose_involutive _ 3%nat Hne Hc Hrect).
Defined.

(** ** Lists of numbers *)

Lemma numeric_list (l : list float) :
  existsb isnan l = false -> l = map Fin (map value l).
Proof.
  induction l as [|x l IH]; cbn [existsb map]; [reflexivity|].
  intro Hx. apply orb_false_iff in Hx. destruct Hx as [Hx Hl].
  destruct x as [q|]; [|discriminate]. cbn [value]. f_equal. apply IH, Hl.
Qed.

Lemma numeric_item (l : list float) (j : nat) :
  existsb isnan l = false -> (j < length l)%nat -> item l j = Fin (value (item l j)).
Proof.
  intros Hl Hj.
  assert (Hin : In (item l j) l) by (apply nth_In; exact Hj).
  destruct (item l j) as [q|] eqn:E; [reflexivity|].
  assert (Hex : existsb isnan l = true)
    by (apply existsb_exists; exists NaN; split; [exact Hin | reflexivity]).
  congruence.
Qed.

Lemma finite_sum_fin (qs : list Q) : finite_sum (map Fin qs) = Some (Qsum qs).
Proof.
  induction qs as [|q qs IH]; [reflexivity|].
  cbn [map finite_sum fold_right]. fold (finite_sum (map Fin qs)).
  rewrite IH. reflexivity.
Qed.

Lemma fsum_fin (qs : list Q) :
  exists s, fsum (map Fin qs) = Fin s /\ s == Qsum qs.
Proof.
  unfold fsum, of_int. rewrite fold_fadd_fin, finite_sum_fin.
  destruct qs as [|q qs]; cbn [map].
  - exists (inject_Z 0). split; reflexivity.
  - exists (Qred (inject_Z 0 + Qsum (q :: qs))). split; [reflexivity|].
    rewrite Qred_correct. unfold inject_Z. ring.
Qed.

(** ** Standardisation *)

Section Standardize.
Context `{MathLib}.

(** X14. For a non-empty matrix [_standardize] returns as many rows as
    it was given, each with one entry per entry of the first row, together
    with one mean and one deviation per column; no deviation compares
    equal to zero, so the later divisions never divide by zero. *)
Theorem standardize_shape (row0 : list float) (rest : matrix) :
  let Xs := fst (fst (_standardize (row0 :: rest))) in
  let means := snd (fst (_standardize (row0 :: rest))) in
  let stds := snd (_standardize (row0 :: rest)) in
  length Xs = S (length rest)
  /\ Forall (fun row => length row = length row0) Xs
  /\ length means = length row0
  /\ length stds = length row0
  /\ Forall (fun s => feqb s (Fin 0) = false) stds.
Proof.
  cbv zeta. cbn [_standardize fst snd]. unfold range. rewrite Nat.sub_0_r.
  split; [rewrite length_map; reflexivity|].
  split.
  { apply Forall_forall. intros row Hrow. apply in_map_iff in Hrow.
    destruct Hrow as (row' & <- & _). rewrite length_map. apply length_seq. }
  split; [rewrite !length_map; apply length_seq|].
  split; [rewrite !length_map; apply length_seq|].
  apply Forall_forall. intros s Hs. apply in_map_iff in Hs.
  destruct Hs as ([mu sigma] & <- & Hin). apply in_map_iff in Hin.
  destruct Hin as (j & Ej & _). injection Ej as _ <-. cbn [snd].
  match goal with
  | |- feqb (if ?c then _ else _) _ = _ => destruct c eqn:E
  end.
  - reflexivity.
  - exact E.
Qed.

(** X15. On a matrix whose rows are as long as the first one, the rows
    [_standardize] returns are the rows [_apply_standardize] computes from
    the returned means and deviations: training rows are scaled exactly as
    later query rows are. *)
Theorem standardize_rows_match_apply (row0 : list float) (rest : matrix) :
  Forall (fun row => length row = length row0) rest ->
  let Xs := fst (fst (_standardize (row0 :: rest))) in
  let means := snd (fst (_standardize (row0 :: rest))) in
  let stds := snd (_standardize (row0 :: rest)) in
  Xs = map (fun row => _apply_standardize row means stds) (row0 :: rest).
Proof.
  intro Hrect. cbv zeta. cbn [_standardize fst snd].
  apply map_ext_in. intros row Hrow. unfold _apply_standardize.
  assert (Hlen : length row = length row0).
  { destruct Hrow as [<-|Hrow]; [reflexivity|].
    rewrite Forall_forall in Hrect. apply Hrect, Hrow. }
  rewrite Hlen. reflexivity.
Qed.

End Standardize.

Lemma standardize_rows_match_apply_witness :
  Forall (fun row : list float => length row = length [Fin 1; Fin 10])
         [[Fin 3; Fin 10]; [Fin 5; Fin 13]]
  /\ fst (fst (@_standardize sqrt_12 [[Fin 1; Fin 10]; [Fin 3; Fin 10]; [Fin 5; Fin 13]]))
     = map (fun row =>
              _apply_standardize row
                (snd (fst (@_standardize sqrt_12
                             [[Fin 1; Fin 10]; [Fin 3; Fin 10]; [Fin 5; Fin 13]])))
                (snd (@_standardize sqrt_12
                        [[Fin 1; Fin 10]; [Fin 3; Fin 10]; [Fin 5; Fin 13]])))
           [[Fin 1; Fin 10]; [Fin 3; Fin 10]; [Fin 5; Fin 13]].
Proof.
  assert (Hrect : Forall (fun row : list float => length row = length [Fin 1; Fin 10])
                         [[Fin 3; Fin 10]; [Fin 5; Fin 13]])
    by (repeat constructor).
  split; [exact Hrect|].
  exact (@standardize_rows_match_apply sqrt_12 [Fin 1; Fin 10]
           [[Fin 3; Fin 10]; [Fin 5; Fin 13]] Hrect).
Defined.

(** ** Exact sums and dot products *)

Lemma Qsum_cons (a : Q) (l : list Q) : Qsum (a :: l) = a + Qsum l.
Proof. reflexivity. Qed.

Lemma Qsum_app (l1 l2 : list Q) : Qsum (l1 ++ l2) == Qsum l1 + Qsum l2.
Proof.
  induction l1 as [|a l1 IH].
  - change (Qsum []) with 0. cbn [app]. ring.
  - rewrite <- app_comm_cons, !Qsum_cons, IH. ring.
Qed.

Lemma isum_S (n : nat) (f : nat -> Q) : isum (S n) f == isum n f + f n.
Proof.
  unfold isum. rewrite seq_S, map_app, Qsum_app. cbn [map Nat.add].
  rewrite Qsum_cons. change (Qsum []) with 0. ring.
Qed.

Lemma isum_ext (n : nat) (f g : nat -> Q) :
  (forall c, (c < n)%nat -> f c == g c) -> isum n f == isum n g.
Proof.
  induction n as [|n IH]; intro Hfg.
  - reflexivity.
  - rewrite !isum_S, IH, (Hfg n) by (intros; try apply Hfg; lia). reflexivity.
Qed.

Lemma numeric_row_fin (cols : nat) (qs : list Q) :
  length qs = cols -> numeric_row cols (map Fin qs).
Proof.
  intro Hlen. split; [rewrite length_map; exact Hlen|].
  clear Hlen. induction qs as [|q qs IH]; [reflexivity | exact IH].
Qed.

Lemma numeric_row_values (cols : nat) (row : list float) :
  numeric_row cols row -> row = map Fin (map value row) /\ length (map value row) = cols.
Proof.
  intros [Hlen Hfin]. split; [apply numeric_list, Hfin|].
  rewrite length_map. exact Hlen.
Qed.

Lemma numeric_row_item (cols : nat) (row : list float) (c : nat) :
  numeric_row cols row -> (c < cols)%nat -> item row c = Fin (value (item row c)).
Proof.
  intros [Hlen Hfin] Hc. apply numeric_item; [exact Hfin | lia].
Qed.

Lemma numeric_row_intro (cols : nat) (row : list float) :
  length row = cols ->
  (forall c, (c < cols)%nat -> exists q, item row c = Fin q) ->
  numeric_row cols row.
Proof.
  intros Hlen Hitems. split; [exact Hlen|].
  destruct (existsb isnan row) eqn:E; [|reflexivity].
  apply existsb_exists in E. destruct E as (x & Hin & Hx).
  destruct (In_nth _ _ NaN Hin) as (c & Hc & Ec).
  destruct (Hitems c) as (q & Hq); [lia|].
  unfold item in Hq. rewrite Ec in Hq. rewrite Hq in Hx. discriminate Hx.
Qed.

Lemma isum_shift (n : nat) (f : nat -> Q) :
  isum (S n) f == f 0%nat + isum n (fun c => f (S c)).
Proof.
  unfold isum. cbn [seq map]. rewrite Qsum_cons, <- seq_shift, map_map. reflexivity.
Qed.

Lemma mul_combine_fin (us : list Q) :
  forall xs,
    map (fun '(a, b) => fmul a b) (combine (map Fin us) (map Fin xs))
    = map Fin (map (fun '(a, x) => Qred (a * x)) (combine us xs)).
Proof.
  induction us as [|a us IH]; intros [|x xs]; cbn [map combine]; try reflexivity.
  f_equal. apply IH.
Qed.

Lemma Qsum_combine_isum (us : list Q) :
  forall xs n,
    length us = n -> length xs = n ->
    Qsum (map (fun '(a, x) => Qred (a * x)) (combine us xs))
    == isum n (fun c => nth c us 0 * nth c xs 0).
Proof.
  induction us as [|a us IH]; intros [|x xs] [|n] Hu Hx; cbn [length] in Hu, Hx;
    try discriminate.
  - reflexivity.
  - cbn [combine map]. rewrite Qsum_cons, isum_shift. cbn [nth].
    rewrite (IH xs n) by lia. rewrite Qred_correct. reflexivity.
Qed.

Lemma nth_values (l : list float) (c : nat) : nth c (map value l) 0 = value (item l c).
Proof.
  unfold item. change 0 with (value NaN). apply map_nth.
Qed.

Lemma dot_fin (n : nat) (us vs : list Q) :
  length us = n -> length vs = n ->
  exists s, dot (map Fin us) (map Fin vs) = Fin s
            /\ s == isum n (fun c => nth c us 0 * nth c vs 0).
Proof.
  intros Lu Lv. unfold dot. rewrite mul_combine_fin.
  destruct (fsum_fin (map (fun '(a, x) => Qred (a * x)) (combine us vs))) as (s & Es & Hs).
  exists s. split; [exact Es|].
  rewrite Hs. apply (@Qsum_combine_isum us vs n Lu Lv).
Qed.

(** The dot product of two numeric lists of the same length. *)
Lemma dot_numeric (n : nat) (u v : list float) :
  numeric_row n u -> numeric_row n v ->
  exists s, dot u v = Fin s /\ s == isum n (fun c => value (item u c) * value (item v c)).
Proof.
  intros Hu Hv.
  destruct (numeric_row_values Hu) as [Eu Lu].
  destruct (numeric_row_values Hv) as [Ev Lv].
  destruct (@dot_fin n (map value u) (map value v) Lu Lv) as (s & Es & Hs).
  rewrite <- Eu, <- Ev in Es.
  exists s. split; [exact Es|].
  rewrite Hs. apply isum_ext. intros c _. rewrite !nth_values. reflexivity.
Qed.

(** ** Matrices of numbers *)

Lemma numeric_matrix_Forall (n c : nat) (X : matrix) :
  numeric_matrix n c X -> Forall (numeric_row c) X.
Proof.
  intros [Hlen Hrows]. apply Forall_forall. intros row Hin.
  destruct (In_nth _ _ [] Hin) as (r & Hr & <-). apply Hrows. lia.
Qed.

Lemma nth_map_rows (F : list float -> list float) (M : matrix) (r : nat) :
  (r < length M)%nat -> nth r (map F M) [] = F (nth r M []).
Proof.
  intro Hr. rewrite (nth_indep _ [] (F [])) by (rewrite length_map; exact Hr).
  apply map_nth.
Qed.

Lemma numeric_column (c : nat) (X : matrix) (j : nat) :
  Forall (numeric_row c) X -> (j < c)%nat ->
  map (fun row => item row j) X = map Fin (map (fun row => value (item row j)) X).
Proof.
  intros HX Hj. rewrite map_map. apply map_ext_in. intros row Hrow.
  rewrite Forall_forall in HX. apply (@numeric_row_item c); [apply HX, Hrow | exact Hj].
Qed.

Lemma transpose_numeric (n c : nat) (M : matrix) :
  (1 <= n)%nat -> numeric_matrix n c M -> numeric_matrix c n (_transpose M).
Proof.
  intros Hn HM. pose proof (numeric_matrix_Forall HM) as HF.
  assert (Hne : M <> []) by (destruct HM as [Hlen _]; destruct M; [cbn in Hlen; lia | discriminate]).
  assert (Hrect : Forall (fun row => length row = c) M).
  { eapply Forall_impl; [|exact HF]. intros row [Hl _]. exact Hl. }
  rewrite (@transpose_rect M c Hne Hrect).
  split; [rewrite length_map; apply length_seq|].
  intros j Hj. rewrite nth_map_seq by exact Hj.
  rewrite (numeric_column HF Hj). apply numeric_row_fin.
  rewrite length_map. exact (proj1 HM).
Qed.

Lemma dot_is_fin (us vs : list Q) : exists s, dot (map Fin us) (map Fin vs) = Fin s.
Proof.
  unfold dot. rewrite mul_combine_fin.
  destruct (fsum_fin (map (fun '(a, x) => Qred (a * x)) (combine us vs))) as (s & Es & _).
  exists s. exact Es.
Qed.

Lemma dot_numeric_any (n m : nat) (u v : list float) :
  numeric_row n u -> numeric_row m v -> exists s, dot u v = Fin s.
Proof.
  intros Hu Hv.
  rewrite (proj1 (numeric_row_values Hu)), (proj1 (numeric_row_values Hv)).
  apply dot_is_fin.
Qed.

Lemma matmul_numeric (r n c : nat) (A B : matrix) :
  (1 <= n)%nat -> numeric_matrix r n A -> numeric_matrix n c B ->
  numeric_matrix r c (_matmul A B).
Proof.
  intros Hn HA HB. unfold _matmul.
  pose proof (transpose_numeric Hn HB) as HBt.
  split; [rewrite length_map; exact (proj1 HA)|].
  intros i Hi. rewrite nth_map_rows by (rewrite (proj1 HA); exact Hi).
  apply numeric_row_intro; [rewrite length_map; exact (proj1 HBt)|].
  intros j Hj. unfold item.
  rewrite (nth_indep _ NaN (dot (nth i A []) []))
    by (rewrite length_map, (proj1 HBt); exact Hj).
  rewrite (map_nth (fun col => dot (nth i A []) col)).
  apply (@dot_numeric_any n n); [apply (proj2 HA), Hi | apply (proj2 HBt), Hj].
Qed.

Lemma add_diagonal_square (alpha : float) (n : nat) (M : matrix) :
  square n M -> square n (add_diagonal M alpha).
Proof.
  intro Hsq. unfold add_diagonal.
  change (fun (M0 : matrix) (i : nat) =>
            list_set M0 i (list_set (nth i M0 []) i (fadd (entry M0 i i) alpha)))
    with (diag_step alpha).
  generalize (range 0 (length M)). intro indices. revert M Hsq.
  induction indices as [|i rest IH]; intros M Hsq; cbn [fold_left]; [exact Hsq|].
  apply IH, diag_step_square, Hsq.
Qed.

(** ** Ridge regression *)

Section RidgeFit.
Context `{MathLib}.

Lemma ridge_fit_coefficients (row0 : list float) (rest : matrix) (y : list float)
                             (alpha : float) :
  let X := row0 :: rest in
  let coeffs := _gaussian_solve (normal_matrix X alpha) (_matvec (_transpose (design X)) y) in
  r_bias (_ridge_fit X y alpha) = item coeffs 0
  /\ weights (_ridge_fit X y alpha) = tl coeffs
  /\ means (_ridge_fit X y alpha) = snd (fst (_standardize X))
  /\ stds (_ridge_fit X y alpha) = snd (_standardize X).
Proof.
  cbv zeta. unfold _ridge_fit.
  destruct (_standardize (row0 :: rest)) as [[Xs ms] ss]. cbn. auto.
Qed.

(** X19. A model fitted on a non-empty matrix has one weight, one mean
    and one deviation per entry of the first row, whatever the data. *)
Theorem ridge_fit_shape (row0 : list float) (rest : matrix) (y : list float)
                        (alpha : float) :
  let m := _ridge_fit (row0 :: rest) y alpha in
  length (weights m) = length row0
  /\ length (means m) = length row0
  /\ length (stds m) = length row0.
Proof.
  cbv zeta.
  destruct (ridge_fit_coefficients row0 rest y alpha) as (_ & Ew & Em & Es).
  cbv zeta in Ew, Em, Es. rewrite Ew, Em, Es.
  set (X := row0 :: rest).
  assert (Hdesign : Forall (fun row => length row = S (length row0)) (design X)).
  { unfold design, X. cbn [_standardize]. cbv zeta. unfold range. rewrite Nat.sub_0_r.
    apply Forall_forall. intros row Hrow.
    apply in_map_iff in Hrow. destruct Hrow as (r1 & <- & Hr1).
    apply in_map_iff in Hr1. destruct Hr1 as (r2 & <- & _).
    cbn [length]. rewrite length_map, length_seq. reflexivity. }
  assert (Hne : design X <> []).
  { unfold design, X. cbn [_standardize]. cbv zeta. cbn [map]. discriminate. }
  destruct (@transpose_rows (design X) (S (length row0)) Hne Hdesign) as [HlenT _].
  split; [|split].
  - assert (Hsolve : length (_gaussian_solve (normal_matrix X alpha)
                              (_matvec (_transpose (design X)) y))
                     = S (length row0)).
    { unfold _gaussian_solve.
      assert (HlenA : length (normal_matrix X alpha) = S (length row0)).
      { unfold normal_matrix, gram.
        pose proof (matmul_transpose_square (design X)) as Hsq.
        rewrite HlenT in Hsq.
        exact (proj1 (add_diagonal_square alpha Hsq)). }
      rewrite HlenA.
      destruct (gauss_loop _ _ _) as [Mf|] eqn:E.
      - rewrite length_map, (@gauss_loop_length _ _ _ _ E).
        unfold augmented. rewrite length_map, enumerate_length. exact HlenA.
      - apply repeat_length. }
    destruct (_gaussian_solve _ _) as [|t0 ts]; cbn [length tl] in *; lia.
  - unfold X. cbn [_standardize fst snd]. unfold range.
    rewrite !length_map, length_seq. lia.
  - unfold X. cbn [_standardize fst snd]. unfold range.
    rewrite !length_map, length_seq. lia.
Qed.

End RidgeFit.

(** ** The forecast of an ok result *)

Lemma clip_is_fin (value : float) (b d : Q) : exists c, _clip value (Fin b) (Fin d) = Fin c.
Proof.
  unfold _clip, pymax, pymin, fgtb, fsub, fadd, lift2. cbv zeta.
  destruct value as [v|]; cbn [fltb].
  - destruct (Qltb v (Qred (b + d))); cbn [fltb];
      match goal with |- context [if ?c then _ else _] => destruct c end;
      eexists; reflexivity.
  - destruct (Qltb (Qred (b - d)) (Qred (b + d))); eexists; reflexivity.
Qed.

Section NoNaNResult.
Context `{MathLib} `{RandomLib}.

(** X21. An ok result whose payload gives a numeric [baseline_high]
    ([baseline_low]) among the current features reports a number as
    [forecast_high] ([forecast_low]), never NaN, whatever the models
    predicted and whatever sign [clip_delta] has. *)
Theorem ok_result_forecast_is_number (p : payload) (g : rng) (r : result) :
  fst (run_model p g) = Returns r ->
  status (model_info r) = "ok"%string ->
  (forall b, dict_get (p_features p) k_baseline_high = Some b ->
             exists f, forecast_high r = Some (Fin f))
  /\ (forall b, dict_get (p_features p) k_baseline_low = Some b ->
                exists f, forecast_low r = Some (Fin f)).
Proof.
  intros Hrun Hok.
  destruct (run_model_cases p g) as [(n & E) | [(n & E) | [(e & E) | E]]].
  - rewrite E in Hrun. injection Hrun as <-. discriminate Hok.
  - rewrite E in Hrun. injection Hrun as <-. discriminate Hok.
  - rewrite E in Hrun. discriminate Hrun.
  - destruct E as (keys & a & k & Xt & mh & ml & Xc & Xcs & yh & yl & cbh & cbl & E).
    rewrite E in Hrun. injection Hrun as Er.
    pose proof (ensemble_cases (p_config p) (p_features p) keys a k
                  (Fin (get_or (c_clip_delta (p_config p)) 12))
                  (Fin (get_or (c_sigma_floor (p_config p)) (15 # 10)))
                  Xt mh ml Xc Xcs yh yl cbh cbl) as C.
    cbv zeta in C. rewrite Er in C.
    destruct C as [C | (vh & vl & rh & rl & wh & wl & Fh & Fl & _)].
    + rewrite C in Hok. discriminate Hok.
    + split; intros b Hb.
      * rewrite Hb in Fh. cbn [_safe_float] in Fh.
        destruct (clip_is_fin vh b (get_or (c_clip_delta (p_config p)) 12)) as (c & Ec).
        exists c. rewrite Fh, Ec. reflexivity.
      * rewrite Hb in Fl. cbn [_safe_float] in Fl.
        destruct (clip_is_fin vl b (get_or (c_clip_delta (p_config p)) 12)) as (c & Ec).
        exists c. rewrite Fl, Ec. reflexivity.
Qed.

End NoNaNResult.

Lemma ok_result_forecast_is_number_witness :
  exists r,
    fst (@run_model sqrt_12 lcg payload_negative_clip 0%Z) = Returns r
    /\ status (model_info r) = "ok"%string
    /\ exists f, forecast_high r = Some (Fin f).
Proof.
  eexists.
  assert (Hrun : fst (@run_model sqrt_12 lcg payload_negative_clip 0%Z) = Returns _)
    by (vm_compute; reflexivity).
  split; [exact Hrun|].
  match type of Hrun with
  | _ = Returns ?r0 =>
    assert (Hok : status (model_info r0) = "ok"%string) by reflexivity
  end.
  split; [exact Hok|].
  exact (proj1 (@ok_result_forecast_is_number sqrt_12 lcg payload_negative_clip 0%Z _
                  Hrun Hok) 10 eq_refl).
Defined.

(** ** Which status a returned result has *)

Section StatusTable.
Context `{MathLib} `{RandomLib}.

Lemma ensemble_status cfg features feature_keys ridge_alpha knn_k clip_delta sigma_floor
    X_train model_high model_low X_calib X_calib_std y_high_calib y_low_calib
    baseline_high baseline_low :
  status (model_info
            (ensemble cfg features feature_keys ridge_alpha knn_k clip_delta sigma_floor
               X_train model_high model_low X_calib X_calib_std y_high_calib y_low_calib
               baseline_high baseline_low))
  = if existsb isnan (map (fun k => _safe_float (dict_get features k)) feature_keys)
    then "invalid_features"%string else "ok"%string.
Proof.
  unfold ensemble.
  destruct (existsb isnan (map (fun k => _safe_float (dict_get features k)) feature_keys));
    reflexivity.
Qed.

(** X22. The status of a returned result is decided by three tests, in
    this order: fewer training records than [min_samples] gives
    insufficient_training_data; otherwise no usable training row, or fewer
    than [min_samples] of them, in the training subset gives
    training_filtered; otherwise a missing or null current value for some
    feature key gives invalid_features; otherwise the status is ok. *)
Theorem run_model_status_table (p : payload) (g : rng) (r : result) :
  fst (run_model p g) = Returns r ->
  let min_samples := get_or (c_min_samples (p_config p)) 25%Z in
  let records := Z.of_nat (length (p_training_data p)) in
  let usable :=
    length (fst (_prepare_matrix (training_subset p) (effective_keys p) k_target_high)) in
  let current_missing :=
    existsb isnan (map (fun k => _safe_float (dict_get (p_features p) k))
                       (effective_keys p)) in
  (status (model_info r) = "insufficient_training_data"%string
   <-> (records < min_samples)%Z)
  /\ (status (model_info r) = "training_filtered"%string
      <-> (min_samples <= records)%Z
          /\ (usable = 0%nat \/ (Z.of_nat usable < min_samples)%Z))
  /\ (status (model_info r) = "invalid_features"%string
      <-> (min_samples <= records)%Z /\ usable <> 0%nat
          /\ (min_samples <= Z.of_nat usable)%Z /\ current_missing = true)
  /\ (status (model_info r) = "ok"%string
      <-> (min_samples <= records)%Z /\ usable <> 0%nat
          /\ (min_samples <= Z.of_nat usable)%Z /\ current_missing = false).
Proof.
  unfold run_model, bind, random_seed, ret, training_subset, training_matrices.
  fold (effective_keys p). cbv zeta.
  destruct (Z.of_nat (length (p_training_data p)) <? get_or (c_min_samples (p_config p)) 25)%Z
    eqn:Emin.
  { cbn [fst]. intros [= <-]. apply Z.ltb_lt in Emin. cbn [fallback model_info status].
    repeat split; intros; try discriminate; try lia; try reflexivity; try tauto. }
  apply Z.ltb_ge in Emin.
  destruct (_split_data _ _ _) as [[train_set calib_set] g'].
  cbn [fst].
  pose proof (prepare_matrix_lengths train_set (effective_keys p) k_target_high) as [Hpar _].
  destruct (_prepare_matrix train_set (effective_keys p) k_target_high) as [X_train yh_t].
  destruct (_prepare_matrix train_set (effective_keys p) k_target_low) as [X0 yl_t].
  cbn [fst snd] in *.
  destruct (match X_train with [] => true | _ :: _ => false end
            || (Z.of_nat (length yh_t) <? get_or (c_min_samples (p_config p)) 25)%Z)
    eqn:Eflt.
  { intros [= <-]. cbn [fallback model_info status].
    apply orb_true_iff in Eflt.
    assert (Hu : length X_train = 0%nat
                 \/ (Z.of_nat (length X_train) < get_or (c_min_samples (p_config p)) 25)%Z).
    { destruct Eflt as [E|E].
      - left. destruct X_train; [reflexivity | discriminate E].
      - right. apply Z.ltb_lt in E. rewrite Hpar. exact E. }
    repeat split; intros; try discriminate; try lia; try reflexivity; try tauto. }
  apply orb_false_iff in Eflt. destruct Eflt as [Ene Ecnt].
  apply Z.ltb_ge in Ecnt. rewrite <- Hpar in Ecnt.
  assert (Hne : length X_train <> 0%nat) by (destruct X_train; [discriminate Ene | discriminate]).
  destruct (_prepare_matrix _ _ k_target_high) as [X_calib yh_c].
  destruct (_prepare_matrix _ _ k_target_low) as [X1 yl_c].
  destruct (baseline_column _ k_baseline_high X_calib) as [bh|e].
  2:{ discriminate. }
  destruct (baseline_column _ k_baseline_low X_calib) as [bl|e].
  2:{ discriminate. }
  intros [= <-]. rewrite ensemble_status.
  destruct (existsb isnan
              (map (fun k => _safe_float (dict_get (p_features p) k)) (effective_keys p)));
    repeat split; intros; try discriminate; try lia; try reflexivity; try tauto.
Qed.

End StatusTable.

(** Twenty usable records, a calibration fraction of 0.9 and
    [min_samples = 2]: the product [20 * (1 - 0.9)] is 1.9999999999999996
    in doubles, one record is kept for training, and the run ends as
    training_filtered. *)
Lemma run_model_status_table_witness :
  exists r,
    fst (@run_model sqrt_12 lcg payload_nine_tenths 0%Z) = Returns r
    /\ status (model_info r) = "training_filtered"%string
    /\ length (fst (_prepare_matrix (@training_subset lcg payload_nine_tenths)
                                    (effective_keys payload_nine_tenths) k_target_high))
       = 1%nat
    /\ (status (model_info r) = "training_filtered"%string
        <-> (2 <= Z.of_nat (length (p_training_data payload_nine_tenths)))%Z
            /\ (length (fst (_prepare_matrix (@training_subset lcg payload_nine_tenths)
                                             (effective_keys payload_nine_tenths)
                                             k_target_high)) = 0%nat
                \/ (Z.of_nat
                      (length (fst (_prepare_matrix
                                      (@training_subset lcg payload_nine_tenths)
                                      (effective_keys payload_nine_tenths)
                                      k_target_high))) < 2)%Z)).
Proof.
  eexists.
  assert (Hrun : fst (@run_model sqrt_12 lcg payload_nine_tenths 0%Z) = Returns _)
    by (vm_compute; reflexivity).
  split; [exact Hrun|].
  split; [reflexivity|].
  split; [vm_compute; reflexivity|].
  exact (proj1 (proj2 (@run_model_status_table sqrt_12 lcg payload_nine_tenths 0%Z _ Hrun))).
Defined.

(** ** Matrix products *)

(** X27. [_matvec] computes the usual sums: on numeric input with
    [n] columns and a vector of [n] entries it returns one number per row
    of [A], the number for row [i] being the sum over [k] of
    [A[i][k] * v[k]]. *)
Theorem matvec_entries (r n : nat) (A : matrix) (v : list float) (i : nat) :
  numeric_matrix r n A -> numeric_row n v -> (i < r)%nat ->
  length (_matvec A v) = r
  /\ exists s, item (_matvec A v) i = Fin s
               /\ s == isum n (fun k => qentry A i k * value (item v k)).
Proof.
  intros HA Hv Hi. unfold _matvec.
  split; [rewrite length_map; exact (proj1 HA)|].
  assert (Erow : item (map (fun row => dot row v) A) i = dot (nth i A []) v).
  { unfold item.
    rewrite (nth_indep _ NaN (dot [] v)) by (rewrite length_map, (proj1 HA); exact Hi).
    apply (map_nth (fun row => dot row v)). }
  rewrite Erow.
  destruct (@dot_numeric n (nth i A []) v (proj2 HA i Hi) Hv) as (s & Es & Hs).
  exists s. split; [exact Es|]. rewrite Hs. reflexivity.
Qed.

(** X28. [_matmul] computes the usual product: for numeric [A] with
    [n >= 1] columns and numeric [B] with [n] rows and [c] columns, the
    entry at [(i, j)] of the result is the sum over [k] of
    [A[i][k] * B[k][j]], and the result has the rows of [A] and the
    columns of [B]. *)
Theorem matmul_entries (r n c : nat) (A B : matrix) (i j : nat) :
  (1 <= n)%nat -> numeric_matrix r n A -> numeric_matrix n c B ->
  (i < r)%nat -> (j < c)%nat ->
  numeric_matrix r c (_matmul A B)
  /\ exists s, entry (_matmul A B) i j = Fin s
               /\ s == isum n (fun k => qentry A i k * qentry B k j).
Proof.
  intros Hn HA HB Hi Hj.
  split; [apply (@matmul_numeric r n c); assumption|].
  pose proof (transpose_numeric Hn HB) as HBt.
  assert (HneB : B <> []).
  { destruct HB as [Hlen _]. destruct B; [cbn in Hlen; lia | discriminate]. }
  assert (Hrect : Forall (fun row => length row = c) B).
  { eapply Forall_impl; [|exact (numeric_matrix_Forall HB)]. intros row [Hl _]. exact Hl. }
  unfold _matmul, entry.
  rewrite nth_map_rows by (rewrite (proj1 HA); exact Hi).
  assert (Ecol : item (map (fun col => dot (nth i A []) col) (_transpose B)) j
                 = dot (nth i A []) (nth j (_transpose B) [])).
  { unfold item.
    rewrite (nth_indep _ NaN (dot (nth i A []) []))
      by (rewrite length_map, (proj1 HBt); exact Hj).
    apply (map_nth (fun col => dot (nth i A []) col)). }
  rewrite Ecol.
  destruct (@dot_numeric n (nth i A []) (nth j (_transpose B) [])
              (proj2 HA i Hi) (proj2 HBt j Hj)) as (s & Es & Hs).
  exists s. split; [exact Es|]. rewrite Hs.
  apply isum_ext. intros k Hk.
  change (item (nth j (_transpose B) []) k) with (entry (_transpose B) j k).
  rewrite (@transpose_entry B c k j HneB Hrect Hj). reflexivity.
Qed.

Lemma matvec_entries_witness :
  numeric_matrix 2 2 [[Fin 2; Fin 1]; [Fin 1; Fin 3]]
  /\ numeric_row 2 [Fin 3; Fin 5]
  /\ (0 < 2)%nat
  /\ length (_matvec [[Fin 2; Fin 1]; [Fin 1; Fin 3]] [Fin 3; Fin 5]) = 2%nat
  /\ item (_matvec [[Fin 2; Fin 1]; [Fin 1; Fin 3]] [Fin 3; Fin 5]) 0 = Fin 11.
Proof.
  assert (HA : numeric_matrix 2 2 [[Fin 2; Fin 1]; [Fin 1; Fin 3]]).
  { split; [reflexivity|]. intros [|[|r]] Hr; [split; reflexivity | split; reflexivity | lia]. }
  assert (Hv : numeric_row 2 [Fin 3; Fin 5]) by (split; reflexivity).
  assert (Hi : (0 < 2)%nat) by lia.
  split; [exact HA|]. split; [exact Hv|]. split; [exact Hi|].
  split; [exact (proj1 (@matvec_entries 2 2 _ _ 0%nat HA Hv Hi)) | reflexivity].
Defined.

Lemma matmul_entries_witness :
  (1 <= 2)%nat
  /\ numeric_matrix 2 2 [[Fin 2; Fin 1]; [Fin 1; Fin 3]]
  /\ (0 < 2)%nat /\ (1 < 2)%nat
  /\ numeric_matrix 2 2
       (_matmul [[Fin 2; Fin 1]; [Fin 1; Fin 3]] [[Fin 2; Fin 1]; [Fin 1; Fin 3]])
  /\ entry (_matmul [[Fin 2; Fin 1]; [Fin 1; Fin 3]] [[Fin 2; Fin 1]; [Fin 1; Fin 3]]) 0 1
     = Fin 5.
Proof.
  assert (Hn : (1 <= 2)%nat) by lia.
  assert (HA : numeric_matrix 2 2 [[Fin 2; Fin 1]; [Fin 1; Fin 3]]).
  { split; [reflexivity|]. intros [|[|r]] Hr; [split; reflexivity | split; reflexivity | lia]. }
  assert (Hi : (0 < 2)%nat) by lia.
  assert (Hj : (1 < 2)%nat) by lia.
  split; [exact Hn|]. split; [exact HA|]. split; [exact Hi|]. split; [exact Hj|].
  split; [exact (proj1 (@matmul_entries 2 2 2 _ _ 0%nat 1%nat Hn HA HA Hi Hj)) | reflexivity].
Defined.

(* ================================================================== *)
(** ** C10: the rows and the low targets the low model is fitted on *)

Lemma combine_map_rows {A B C : Type} (h : A -> C) (X : list A) (y : list B) :
  combine (map h X) y = map (fun '(row, t) => (h row, t)) (combine X y).
Proof.
  revert y. induction X as [|row X IH]; intros [|t y]; cbn [map combine]; try reflexivity.
  f_equal. apply IH.
Qed.

Section LowModelFit.
Context `{MathLib} `{RandomLib}.

Lemma design_rows (row0 : list float) (rest : matrix) :
  let X := row0 :: rest in
  design X
  = map (design_row (snd (fst (_standardize X))) (snd (_standardize X)) (length row0)) X.
Proof.
  cbv zeta. unfold design. cbn [_standardize fst snd]. cbv zeta.
  rewrite map_map. reflexivity.
Qed.

(** The right-hand side [_ridge_fit] hands to the solver is built from
    the pairs [zip(X, y)]: row [i] meets target [i], and rows beyond the
    last target meet nothing. *)
Lemma ridge_rhs_from_pairs (row0 : list float) (rest : matrix) (y : list float) :
  let X := row0 :: rest in
  _matvec (_transpose (design X)) y
  = pair_rhs (snd (fst (_standardize X))) (snd (_standardize X)) (length row0)
             (combine X y).
Proof.
  cbv zeta. set (X := row0 :: rest).
  pose proof (design_rows row0 rest) as ED. cbv zeta in ED. fold X in ED.
  set (ms := snd (fst (_standardize X))) in *.
  set (ss := snd (_standardize X)) in *.
  assert (Hrect : Forall (fun row => length row = S (length row0)) (design X)).
  { rewrite ED. apply Forall_forall. intros row Hrow.
    apply in_map_iff in Hrow. destruct Hrow as (r1 & <- & _).
    unfold design_row, range. cbn [length]. rewrite length_map, length_seq. lia. }
  assert (Hne : design X <> []).
  { rewrite ED. unfold X. cbn [map]. discriminate. }
  rewrite (@transpose_rect (design X) (S (length row0)) Hne Hrect).
  unfold _matvec, pair_rhs, range. rewrite map_map, Nat.sub_0_r.
  apply map_ext. intro j. unfold dot. rewrite ED, map_map, combine_map_rows, map_map.
  f_equal. apply map_ext. intros [row t]. reflexivity.
Qed.

(** C10. In an ok-status run both ridge models are fitted on the feature
    matrix [X_train] that the pass over [target_high] returns for the
    training subset, the low model with the targets [y_low_train] of the
    separate pass over [target_low]. Inside the fit the low targets meet
    the rows by position: the right-hand side of the normal equations is
    formed from the pairs [zip(X_train, y_low_train)] and the coefficients
    of the low model are the solver's answer for it. A record of the
    subset whose features and [target_high] are numeric and whose
    [target_low] is missing keeps its row in [X_train] and has no entry in
    [y_low_train]; when the other records are fully valid, the pairs are
    the aligned pairs of the records before it followed by the rows from
    that record on against the low targets of the records after it, one
    pair fewer than rows: each of those rows meets the low target of the
    next record and the last row meets none. *)
Theorem low_model_fit_on_high_filtered_rows (p : payload) (g : rng) (r : result) :
  fst (run_model p g) = Returns r ->
  status (model_info r) = "ok"%string ->
  let train_set := training_subset p in
  let keys := effective_keys p in
  let alpha := effective_alpha p in
  exists X_train y_high_train y_low_train,
    training_matrices train_set keys = (X_train, y_high_train, y_low_train)
    /\ X_train = fst (_prepare_matrix train_set keys k_target_high)
    /\ y_low_train = snd (_prepare_matrix train_set keys k_target_low)
    /\ (exists Xc Xcs yh yl bh bl,
          r = ensemble (p_config p) (p_features p) keys alpha
                (get_or (c_knn_k (p_config p)) 7%Z)
                (Fin (get_or (c_clip_delta (p_config p)) 12))
                (Fin (get_or (c_sigma_floor (p_config p)) (15 # 10)))
                X_train
                (_ridge_fit X_train y_high_train alpha)
                (_ridge_fit X_train y_low_train alpha)
                Xc Xcs yh yl bh bl)
    /\ (let m := _ridge_fit X_train y_low_train alpha in
        let coeffs :=
          _gaussian_solve (normal_matrix X_train alpha)
            (pair_rhs (means m) (stds m) (length (hd [] X_train))
                      (combine X_train y_low_train)) in
        X_train <> [] /\ r_bias m = item coeffs 0 /\ weights m = tl coeffs)
    /\ forall pre s post th,
         train_set = pre ++ s :: post ->
         existsb isnan (feature_row s keys) = false ->
         s_target_high s = Some th ->
         s_target_low s = None ->
         X_train = fst (_prepare_matrix pre keys k_target_high)
                   ++ feature_row s keys :: fst (_prepare_matrix post keys k_target_high)
         /\ y_low_train = snd (_prepare_matrix pre keys k_target_low)
                          ++ snd (_prepare_matrix post keys k_target_low)
         /\ (Forall (fully_valid keys) pre -> Forall (fully_valid keys) post ->
             combine X_train y_low_train
             = combine (map (fun u => feature_row u keys) pre)
                       (map (fun u => _safe_float (s_target_low u)) pre)
               ++ combine (feature_row s keys :: map (fun u => feature_row u keys) post)
                          (map (fun u => _safe_float (s_target_low u)) post)
             /\ S (length (combine X_train y_low_train)) = length X_train)
         /\ forall t post' tl,
              Forall (fully_valid keys) pre ->
              post = t :: post' ->
              fully_valid keys t ->
              s_target_low t = Some tl ->
              nth_error (combine X_train y_low_train) (length pre)
              = Some (feature_row s keys, Fin tl).
Proof.
  intros Hrun Hok train_set keys alpha.
  destruct (run_model_ok_inv p g Hrun Hok)
    as (_ & X_train & yh_t & yl_t & Etm & Hne & _ & Hens).
  fold train_set keys alpha in Etm, Hens.
  exists X_train, yh_t, yl_t.
  split; [exact Etm|].
  assert (EX : X_train = fst (_prepare_matrix train_set keys k_target_high)
               /\ yl_t = snd (_prepare_matrix train_set keys k_target_low)).
  { unfold training_matrices in Etm.
    destruct (_prepare_matrix train_set keys k_target_high) as [Xh yh].
    destruct (_prepare_matrix train_set keys k_target_low) as [Xl yl].
    injection Etm as <- _ <-. split; reflexivity. }
  split; [exact (proj1 EX)|]. split; [exact (proj2 EX)|]. clear EX.
  split; [exact Hens|].
  split.
  { cbv zeta. split; [exact Hne|].
    destruct X_train as [|row0 rest]; [congruence|].
    destruct (ridge_fit_coefficients row0 rest yl_t alpha) as (Eb & Ew & Em & Es).
    cbv zeta in Eb, Ew, Em, Es. rewrite Em, Es. cbn [hd].
    rewrite <- (ridge_rhs_from_pairs row0 rest yl_t).
    split; [exact Eb | exact Ew]. }
  clearbody train_set keys alpha.
  intros pre s post th -> Hrow Hhigh Hlow.
  unfold training_matrices in Etm.
  rewrite !prepare_matrix_app, !prepare_matrix_cons in Etm.
  change (sample_get s k_target_high) with (s_target_high s) in Etm.
  change (sample_get s k_target_low) with (s_target_low s) in Etm.
  rewrite Hrow, Hhigh, Hlow in Etm. cbn [_safe_float isnan orb fst snd] in Etm.
  injection Etm as EX _ Ey. subst X_train yl_t.
  split; [reflexivity|]. split; [reflexivity|].
  split.
  - intros Hpre Hpost.
    destruct (prepare_matrix_valid Hpre) as [Eh El].
    destruct (prepare_matrix_valid Hpost) as [Eh' El'].
    rewrite Eh, El, Eh', El'. cbn [fst snd].
    rewrite combine_app_same by (rewrite !length_map; reflexivity).
    split; [reflexivity|].
    rewrite !length_app, !length_combine. cbn [length].
    rewrite !length_map. lia.
  - intros t post' tl Hpre -> Ht Htl.
    destruct (prepare_matrix_valid Hpre) as [Eh El].
    rewrite Eh, El. cbn [fst snd].
    rewrite !prepare_matrix_cons.
    change (sample_get t k_target_low) with (s_target_low t).
    destruct Ht as (Hrt & Hht & Hlt). rewrite Hrt, Hlt, Htl. cbn [orb fst snd _safe_float].
    rewrite combine_app_same by (rewrite !length_map; reflexivity).
    rewrite nth_error_app2 by (rewrite length_combine, !length_map; lia).
    rewrite length_combine, !length_map, Nat.min_id, Nat.sub_diag.
    reflexivity.
Qed.

End LowModelFit.

(** Two records, the first without [target_low], and no calibration
    fraction: whichever order the shuffle leaves them in, [X_train] keeps
    both rows, [y_low_train] holds one target, and one pair reaches the
    low fit. *)
Lemma low_model_fit_on_high_filtered_rows_witness :
  exists r,
    fst (@run_model sqrt_12 lcg payload_missing_low 0%Z) = Returns r
    /\ status (model_info r) = "ok"%string
    /\ exists X_train y_high_train y_low_train,
         training_matrices (@training_subset lcg payload_missing_low)
                           (effective_keys payload_missing_low)
         = (X_train, y_high_train, y_low_train)
         /\ length X_train = 2%nat
         /\ length y_low_train = 1%nat
         /\ length (combine X_train y_low_train) = 1%nat
         /\ (exists Xc Xcs yh yl bh bl,
               r = @ensemble sqrt_12 (p_config payload_missing_low)
                     (p_features payload_missing_low)
                     (effective_keys payload_missing_low)
                     (effective_alpha payload_missing_low) 7%Z (Fin 12) (Fin (15 # 10))
                     X_train
                     (@_ridge_fit sqrt_12 X_train y_high_train
                        (effective_alpha payload_missing_low))
                     (@_ridge_fit sqrt_12 X_train y_low_train
                        (effective_alpha payload_missing_low))
                     Xc Xcs yh yl bh bl)
         /\ (let m := @_ridge_fit sqrt_12 X_train y_low_train
                        (effective_alpha payload_missing_low) in
             let coeffs :=
               _gaussian_solve
                 (@normal_matrix sqrt_12 X_train (effective_alpha payload_missing_low))
                 (pair_rhs (means m) (stds m) (length (hd [] X_train))
                           (combine X_train y_low_train)) in
             X_train <> [] /\ r_bias m = item coeffs 0 /\ weights m = tl coeffs).
Proof.
  eexists.
  assert (Hrun : fst (@run_model sqrt_12 lcg payload_missing_low 0%Z) = Returns _)
    by (vm_compute; reflexivity).
  split; [exact Hrun|].
  match type of Hrun with
  | _ = Returns ?r0 =>
    assert (Hok : status (model_info r0) = "ok"%string) by reflexivity
  end.
  split; [exact Hok|].
  destruct (@low_model_fit_on_high_filtered_rows sqrt_12 lcg payload_missing_low 0%Z _
              Hrun Hok)
    as (X_train & yh_t & yl_t & Etm & EX & Ey & Hens & Hfit & _).
  exists X_train, yh_t, yl_t.
  split; [exact Etm|].
  split; [rewrite EX; vm_compute; reflexivity|].
  split; [rewrite Ey; vm_compute; reflexivity|].
  split; [rewrite EX, Ey; vm_compute; reflexivity|].
  split; [exact Hens | exact Hfit].
Defined.

(* ================================================================== *)

(** ** Rounding to binary64 *)

Lemma pow2_pos (e : Z) : 0 < 2 ^ e.
Proof. apply Qpower_0_lt. reflexivity. Qed.

Lemma pow2_add (a b : Z) : 2 ^ (a + b) == 2 ^ a * 2 ^ b.
Proof. apply Qpower_plus. discriminate. Qed.

Lemma pow2_lt_inv (a b : Z) : 2 ^ a < 2 ^ b -> (a < b)%Z.
Proof. intro Hab. apply (Qpower_lt_compat_l_inv 2); [exact Hab | reflexivity]. Qed.

Lemma pow2_half (e : Z) : 2 ^ (e - 1) == (1 # 2) * 2 ^ e.
Proof.
  replace (e - 1)%Z with (e + (-1))%Z by lia.
  rewrite pow2_add. change (2 ^ (-1)) with (1 # 2).
  set (p := 2 ^ e). ring.
Qed.

Lemma pow2_Z (k : Z) : (0 <= k)%Z -> inject_Z (2 ^ k) == 2 ^ k.
Proof. intro Hk. rewrite Zpower_Qpower by exact Hk. reflexivity. Qed.

(** [ilog2 a] is the exponent of the binade of [a]. *)
Lemma ilog2_spec (a : Q) : 0 < a -> 2 ^ Double.ilog2 a <= a /\ a < 2 ^ (Double.ilog2 a + 1).
Proof.
  intro Ha. unfold Double.ilog2.
  destruct a as [n d]. cbn [Qnum Qden].
  assert (Hn : (0 < n)%Z).
  { unfold Qlt in Ha. cbn in Ha. lia. }
  set (ln := Z.log2 n). set (ld := Z.log2 (Z.pos d)).
  destruct (Z.log2_spec n Hn) as [Hn1 Hn2]. fold ln in Hn1, Hn2.
  destruct (Z.log2_spec (Z.pos d) (Pos2Z.is_pos d)) as [Hd1 Hd2]. fold ld in Hd1, Hd2.
  assert (Hln : (0 <= ln)%Z) by apply Z.log2_nonneg.
  assert (Hld : (0 <= ld)%Z) by apply Z.log2_nonneg.
  assert (En : n # d == inject_Z n / inject_Z (Z.pos d)) by apply Qmake_Qdiv.
  assert (Hdpos : 0 < inject_Z (Z.pos d)).
  { change 0 with (inject_Z 0). rewrite <- Zlt_Qlt. apply Pos2Z.is_pos. }
  assert (Hup : n # d < 2 ^ (ln - ld + 1)).
  { rewrite En. apply Qlt_shift_div_r; [exact Hdpos|].
    apply Qlt_le_trans with (2 ^ (ln + 1)).
    - rewrite <- pow2_Z by lia. rewrite <- Zlt_Qlt. exact Hn2.
    - replace (ln + 1)%Z with ((ln - ld + 1) + ld)%Z by lia.
      rewrite pow2_add. apply Qmult_le_l; [apply pow2_pos|].
      rewrite <- pow2_Z by lia. rewrite <- Zle_Qle. exact Hd1. }
  assert (Hlow : 2 ^ (ln - ld - 1) < n # d).
  { rewrite En. apply Qlt_shift_div_l; [exact Hdpos|].
    apply Qlt_le_trans with (2 ^ ln).
    - replace ln with ((ln - ld - 1) + (ld + 1))%Z at 2 by lia.
      rewrite pow2_add. apply Qmult_lt_l; [apply pow2_pos|].
      rewrite <- pow2_Z by lia. rewrite <- Zlt_Qlt. exact Hd2.
    - rewrite <- pow2_Z by lia. rewrite <- Zle_Qle. exact Hn1. }
  destruct (Qle_bool (2 ^ (ln - ld)) (n # d)) eqn:E.
  - apply Qle_bool_iff in E. split; [exact E | exact Hup].
  - split; [apply Qlt_le_weak; exact Hlow|].
    replace (ln - ld - 1 + 1)%Z with (ln - ld)%Z by lia.
    apply Qnot_le_lt. intro Hle. apply Qle_bool_iff in Hle. congruence.
Qed.

Lemma rne_spec (x : Q) :
  Qabs (inject_Z (Double.rne x) - x) <= 1 # 2 /\ (0 <= x -> (0 <= Double.rne x)%Z).
Proof.
  unfold Double.rne.
  pose proof (Qfloor_le x) as Hlo. pose proof (Qlt_floor x) as Hhi.
  set (f := Qfloor x) in *.
  assert (Hf1 : inject_Z (f + 1) == inject_Z f + 1) by (rewrite inject_Z_plus; reflexivity).
  assert (Hnonneg : 0 <= x -> (0 <= f)%Z).
  { intro Hx. destruct (Z_lt_le_dec f 0) as [Hneg|Hpos]; [|exact Hpos].
    exfalso. assert (Hle : (f + 1 <= 0)%Z) by lia.
    rewrite Zle_Qle in Hle. change (inject_Z 0) with 0 in Hle. lra. }
  destruct (Qcompare (x - inject_Z f) (1 # 2)) eqn:E.
  - apply Qeq_alt in E.
    destruct (Z.even f).
    + split; [apply Qabs_case; intros; lra | exact Hnonneg].
    + split; [apply Qabs_case; intros; lra | intro Hx; specialize (Hnonneg Hx); lia].
  - apply Qlt_alt in E.
    split; [apply Qabs_case; intros; lra | exact Hnonneg].
  - apply Qgt_alt in E.
    split; [apply Qabs_case; intros; lra | intro Hx; specialize (Hnonneg Hx); lia].
Qed.

Lemma rne_integer (x : Q) (k : Z) : x == inject_Z k -> Double.rne x = k.
Proof.
  intro Hx. unfold Double.rne.
  assert (Ef : Qfloor x = k).
  { rewrite (Qfloor_comp _ _ Hx). apply Qfloor_Z. }
  rewrite Ef.
  assert (E : Qcompare (x - inject_Z k) (1 # 2) = Lt).
  { apply Qlt_alt. rewrite Hx.
    setoid_replace (inject_Z k - inject_Z k) with 0 by ring. reflexivity. }
  rewrite E. reflexivity.
Qed.

(** What rounding does to a positive exact result [q]: it is replaced by
    a non-negative [v] on the grid of [2^-1074]; from the smallest normal
    number on [v] is within one part in [2^53] of [q]; below, it is within
    [2^-1075] and equal to [q] when [q] is on the grid.  The result is
    plus infinity when [v] reaches [2^1024] and the double [v] otherwise. *)
Lemma rnd_core (q : Q) :
  0 < q ->
  exists v,
    0 <= v
    /\ Double.on_grid v
    /\ (2 ^ (-1022) <= q -> Qabs (v - q) <= 2 ^ (-53) * q)
    /\ (q < 2 ^ (-1022) ->
        Qabs (v - q) <= 2 ^ (-1075)
        /\ (Double.on_grid q -> v == q))
    /\ ((2 ^ 1024 <= v /\ Double.rnd q = Double.Inf false)
        \/ (v < 2 ^ 1024 /\ exists r, Double.rnd q = Double.D r /\ r == v)).
Proof.
  intros Hq. unfold Double.rnd.
  assert (E0 : Qeq_bool q 0 = false).
  { destruct (Qeq_bool q 0) eqn:E; [|reflexivity].
    apply Qeq_bool_iff in E. lra. }
  assert (Eneg : Qltb q 0 = false) by (apply Qltb_ge; lra).
  rewrite E0, Eneg. cbv zeta.
  assert (Eabs : Qabs q == q) by (apply Qabs_pos; lra).
  destruct (ilog2_spec (a := Qabs q)) as [Hl1 Hl2]; [rewrite Eabs; exact Hq|].
  set (l := Double.ilog2 (Qabs q)) in *.
  set (e := Z.max (l - 52) (-1074)).
  assert (He : (-1074 <= e)%Z) by (unfold e; lia).
  pose proof (pow2_pos e) as Hpe.
  set (x := Qabs q / 2 ^ e).
  assert (Ex : x * 2 ^ e == q).
  { unfold x. rewrite <- Eabs at 2. field. lra. }
  assert (Hx0 : 0 <= x).
  { unfold x. apply Qle_shift_div_l; [exact Hpe|]. rewrite Eabs. lra. }
  destruct (rne_spec x) as [Hm Hm0]. specialize (Hm0 Hx0).
  set (m := Double.rne x) in *.
  set (v := inject_Z m * 2 ^ e).
  exists v.
  assert (Hv0 : 0 <= v).
  { unfold v. apply Qmult_le_0_compat; [|lra].
    change 0 with (inject_Z 0). rewrite <- Zle_Qle. exact Hm0. }
  assert (Herr : Qabs (v - q) <= 2 ^ (e - 1)).
  { rewrite pow2_half.
    assert (Evq : v - q == (inject_Z m - x) * 2 ^ e) by (unfold v; rewrite <- Ex; ring).
    rewrite Evq, Qabs_Qmult, (Qabs_pos (2 ^ e)) by lra.
    apply Qmult_le_compat_r; [exact Hm | lra]. }
  split; [exact Hv0|].
  split.
  { exists (m * 2 ^ (e + 1074))%Z. unfold v.
    rewrite inject_Z_mult, pow2_Z by lia.
    rewrite <- Qmult_assoc, <- pow2_add.
    replace (e + 1074 + -1074)%Z with e by lia. reflexivity. }
  split.
  { intro Hnorm.
    assert (Hl : (-1022 < l + 1)%Z).
    { apply pow2_lt_inv. rewrite Eabs in Hl2. lra. }
    assert (Ee : e = (l - 52)%Z) by (unfold e; lia).
    rewrite Ee in Herr.
    replace (l - 52 - 1)%Z with (-53 + l)%Z in Herr by lia.
    rewrite pow2_add in Herr.
    apply Qle_trans with (2 ^ (-53) * 2 ^ l); [exact Herr|].
    apply Qmult_le_l; [apply pow2_pos|]. rewrite Eabs in Hl1. exact Hl1. }
  split.
  { intro Hsub.
    assert (Hl : (l < -1022)%Z).
    { apply pow2_lt_inv. rewrite Eabs in Hl1. lra. }
    assert (Ee : e = (-1074)%Z) by (unfold e; lia).
    split.
    + rewrite Ee in Herr. exact Herr.
    + intros [k Hk]. unfold v.
      assert (Exk : x == inject_Z k).
      { unfold x. rewrite Eabs, Hk, Ee. field.
        pose proof (pow2_pos (-1074)). lra. }
      unfold m. rewrite (rne_integer Exk), Hk, Ee. reflexivity. }
  destruct (Qle_bool (2 ^ 1024) v) eqn:E.
  - left. apply Qle_bool_iff in E. split; [exact E | reflexivity].
  - right. split.
    + apply Qnot_le_lt. intro Hle. apply Qle_bool_iff in Hle. congruence.
    + exists (Qred v). split; [reflexivity | apply Qred_correct].
Qed.

(** Below the largest binade a positive exact result rounds to a finite
    double. *)
Lemma rnd_positive (q : Q) :
  0 < q -> q <= 2 ^ 1023 ->
  exists r, Double.rnd q = Double.D r
            /\ 0 <= r
            /\ Double.on_grid r
            /\ (2 ^ (-1022) <= q -> Qabs (r - q) <= 2 ^ (-53) * q)
            /\ (q < 2 ^ (-1022) ->
                Qabs (r - q) <= 2 ^ (-1075) /\ (Double.on_grid q -> r == q)).
Proof.
  intros Hq Hmax.
  destruct (rnd_core Hq) as (v & Hv0 & Hgrid & Hnorm & Hsub & Hcase).
  assert (Hv : v < 2 ^ 1024).
  { destruct (Qlt_le_dec q (2 ^ (-1022))) as [Hs|Hn].
    - destruct (Hsub Hs) as [Hb _]. apply Qabs_Qle_condition in Hb.
      assert (2 ^ (-1022) + 2 ^ (-1075) < 2 ^ 1024) by reflexivity. lra.
    - pose proof (Hnorm Hn) as Hb. apply Qabs_Qle_condition in Hb.
      assert (H53 : 2 ^ (-53) * q <= 2 ^ (-53) * 2 ^ 1023)
        by (apply Qmult_le_l; [apply pow2_pos | exact Hmax]).
      assert (2 ^ 1023 + 2 ^ (-53) * 2 ^ 1023 < 2 ^ 1024) by reflexivity.
      lra. }
  destruct Hcase as [[Hbig _] | (_ & r & Er & Erv)]; [lra|].
  exists r. split; [exact Er|].
  split; [rewrite Erv; exact Hv0|].
  split; [destruct Hgrid as [k Hk]; exists k; rewrite Erv; exact Hk|].
  split.
  - intro Hn. rewrite Erv. exact (Hnorm Hn).
  - intro Hs. destruct (Hsub Hs) as [Hb Hex].
    split; [rewrite Erv; exact Hb|]. intro Hg. rewrite Erv. exact (Hex Hg).
Qed.

(** Every finite result of rounding is inside the double range, and a
    result that is not negative rounds to one that is not negative. *)
Lemma rnd_in_range (q : Q) : Double.in_range (Double.rnd q).
Proof.
  destruct (Qlt_le_dec 0 q) as [Hpos|Hnp].
  - destruct (rnd_core Hpos) as (v & Hv0 & _ & _ & _ & [[_ E] | (Hv & r & E & Erv)]);
      rewrite E; [exact I|].
    cbn [Double.in_range]. rewrite Erv, Qabs_pos by exact Hv0. exact Hv.
  - destruct (Qeq_dec q 0) as [Ez|Hnz].
    + unfold Double.rnd.
      assert (E0 : Qeq_bool q 0 = true) by (apply Qeq_bool_iff; exact Ez).
      rewrite E0. cbn [Double.in_range]. reflexivity.
    + assert (Hneg : 0 < - q) by lra.
      destruct (rnd_core Hneg) as (v & Hv0 & _ & _ & _ & Hcase).
      assert (Eabs : Qabs (- q) = Qabs q).
      { destruct q as [n d]. unfold Qabs, Qopp. cbn. rewrite Z.abs_opp. reflexivity. }
      unfold Double.rnd in *.
      assert (E0 : Qeq_bool q 0 = false).
      { destruct (Qeq_bool q 0) eqn:E; [|reflexivity].
        apply Qeq_bool_iff in E. contradiction. }
      assert (E0' : Qeq_bool (- q) 0 = false).
      { destruct (Qeq_bool (- q) 0) eqn:E; [|reflexivity].
        apply Qeq_bool_iff in E. lra. }
      assert (En : Qltb q 0 = true) by (apply Qltb_lt; lra).
      assert (En' : Qltb (- q) 0 = false) by (apply Qltb_ge; lra).
      rewrite E0', En', Eabs in Hcase. rewrite E0, En. cbv zeta in *.
      destruct (Qle_bool _ _); [exact I|].
      destruct Hcase as [[_ E] | (Hv & r & E & Erv)]; [discriminate E|].
      pose proof (f_equal (fun d => match d with Double.D x => x | _ => 0 end) E) as Er.
      cbv beta iota in Er. cbn [Double.in_range].
      rewrite Qred_correct, Qabs_opp.
      match type of Er with
      | Qred ?t = _ =>
        assert (Hr : t == r) by (rewrite <- Er; symmetry; apply Qred_correct);
        rewrite Hr
      end.
      rewrite Erv, Qabs_pos by exact Hv0. exact Hv.
Qed.

Lemma rnd_not_negative (q : Q) : 0 <= q -> Double.not_negative (Double.rnd q).
Proof.
  intro Hq. destruct (Qeq_dec q 0) as [Ez|Hnz].
  - unfold Double.rnd.
    assert (E0 : Qeq_bool q 0 = true) by (apply Qeq_bool_iff; exact Ez).
    rewrite E0. cbn. lra.
  - assert (Hpos : 0 < q) by lra.
    destruct (rnd_core Hpos) as (v & Hv0 & _ & _ & _ & [[_ E] | (Hv & r & E & Erv)]);
      rewrite E; cbn; [reflexivity|]. rewrite Erv. exact Hv0.
Qed.

(** ** Operations on doubles that are not negative *)

Lemma on_grid_add (a b : Q) : Double.on_grid a -> Double.on_grid b -> Double.on_grid (a + b).
Proof.
  intros [ka Ha] [kb Hb]. exists (ka + kb)%Z.
  rewrite inject_Z_plus, Ha, Hb. ring.
Qed.

Lemma on_grid_0 : Double.on_grid 0.
Proof. exists 0%Z. reflexivity. Qed.

Lemma is_zero_true (q : Q) : Double.is_zero q = true <-> q == 0.
Proof. unfold Double.is_zero. apply Qeq_bool_iff. Qed.

Lemma is_zero_false (q : Q) : Double.is_zero q = false <-> ~ q == 0.
Proof.
  unfold Double.is_zero. split.
  - intros E Hq. apply Qeq_bool_iff in Hq. congruence.
  - intro Hq. destruct (Qeq_bool q 0) eqn:E; [|reflexivity].
    apply Qeq_bool_iff in E. contradiction.
Qed.

(** The sum of two finite doubles that are not negative, while it stays
    below the largest binade: a finite double within one part in [2^53]
    of the exact sum. *)
Lemma add_finite (a b : Q) :
  0 <= a -> 0 <= b -> Double.on_grid a -> Double.on_grid b -> a + b <= 2 ^ 1023 ->
  exists s, Double.add (Double.D a) (Double.D b) = Double.D s
            /\ 0 <= s /\ Double.on_grid s
            /\ (1 - 2 ^ (-53)) * (a + b) <= s <= (1 + 2 ^ (-53)) * (a + b).
Proof.
  intros Ha Hb Ga Gb Hmax. unfold Double.add.
  change (2 ^ (-53)) with (1 # 9007199254740992).
  destruct (Double.is_zero a) eqn:Ea.
  { apply is_zero_true in Ea. exists b.
    split; [reflexivity|]. split; [exact Hb|]. split; [exact Gb|]. lra. }
  destruct (Double.is_zero b) eqn:Eb.
  { apply is_zero_true in Eb. exists a.
    split; [reflexivity|]. split; [exact Ha|]. split; [exact Ga|]. lra. }
  apply is_zero_false in Ea. apply is_zero_false in Eb.
  assert (Hpos : 0 < a + b) by lra.
  destruct (rnd_positive Hpos Hmax) as (r & Er & Hr0 & Gr & Hnorm & Hsub).
  exists r. split; [exact Er|]. split; [exact Hr0|]. split; [exact Gr|].
  change (2 ^ (-53)) with (1 # 9007199254740992) in Hnorm.
  destruct (Qlt_le_dec (a + b) (2 ^ (-1022))) as [Hs|Hn].
  - destruct (Hsub Hs) as [_ Hex]. rewrite (Hex (on_grid_add Ga Gb)). lra.
  - specialize (Hnorm Hn). apply Qabs_Qle_condition in Hnorm. lra.
Qed.

Lemma add_not_negative (x y : Double.double) :
  Double.not_negative x -> Double.not_negative y -> Double.not_negative (Double.add x y).
Proof.
  destruct x as [a|s|], y as [b|s'|]; cbn [Double.not_negative Double.add]; intros Hx Hy;
    try exact I; try assumption.
  - destruct (Double.is_zero a); [exact Hy|].
    destruct (Double.is_zero b); [exact Hx|].
    apply rnd_not_negative. lra.
  - subst s s'. reflexivity.
Qed.

Lemma fold_add_not_negative (l : list Double.double) (acc : Double.double) :
  Double.not_negative acc -> Forall Double.not_negative l ->
  Double.not_negative (fold_left Double.add l acc).
Proof.
  revert acc. induction l as [|x l IH]; intros acc Hacc Hl; cbn [fold_left]; [exact Hacc|].
  inversion Hl as [|? ? Hx Hl']; subst.
  apply IH; [apply add_not_negative; assumption | exact Hl'].
Qed.

Lemma fsum_not_negative (l : list Double.double) :
  Forall Double.not_negative l -> Double.not_negative (Double.fsum l).
Proof.
  intro Hl. unfold Double.fsum. apply fold_add_not_negative; [|exact Hl].
  cbn. lra.
Qed.

(** A power either overflows or is not negative. *)
Lemma pow2_outcome (x : Double.double) :
  Double.pow2 x = Double.Raise Double.OverflowError
  \/ exists r, Double.pow2 x = Double.Done r /\ Double.not_negative r.
Proof.
  destruct x as [a|s|]; cbn [Double.pow2].
  - pose proof (@rnd_not_negative (a * a)) as Hr.
    assert (Hsq : 0 <= a * a).
    { destruct (Qlt_le_dec a 0) as [Hneg|Hpos].
      - setoid_replace (a * a) with ((- a) * (- a)) by ring.
        apply Qmult_le_0_compat; lra.
      - apply Qmult_le_0_compat; lra. }
    specialize (Hr Hsq).
    destruct (Double.rnd (a * a)) as [r|s|]; [right|left|right].
    + exists (Double.D r). split; [reflexivity | exact Hr].
    + reflexivity.
    + exists Double.Nan. split; [reflexivity | exact I].
  - right. exists (Double.Inf false). split; reflexivity.
  - right. exists Double.Nan. split; [reflexivity | exact I].
Qed.

Lemma squares_outcome (pairs : list (Double.double * Double.double)) :
  Double.squares pairs = Double.Raise Double.OverflowError
  \/ exists sq, Double.squares pairs = Double.Done sq /\ Forall Double.not_negative sq.
Proof.
  induction pairs as [|[a b] rest IH]; cbn [Double.squares].
  - right. exists []. split; [reflexivity | constructor].
  - destruct (pow2_outcome (Double.sub a b)) as [E | (s & E & Hs)]; rewrite E;
      cbn [Double.bind]; [left; reflexivity|].
    destruct IH as [E' | (ss & E' & Hss)]; rewrite E'; cbn [Double.bind];
      [left; reflexivity|].
    right. exists (s :: ss). split; [reflexivity | constructor; assumption].
Qed.

(** The length of a non-empty list, as a double, is positive. *)
Lemma of_len_positive {A : Type} (l : list A) :
  l <> [] ->
  Double.of_len l = Double.Inf false
  \/ exists r, Double.of_len l = Double.D r /\ 0 < r.
Proof.
  intro Hne. unfold Double.of_len, Double.of_int.
  assert (Hn : 1 <= inject_Z (Z.of_nat (length l))).
  { change 1 with (inject_Z 1). rewrite <- Zle_Qle.
    destruct l; [congruence | cbn [length]; lia]. }
  set (q := inject_Z (Z.of_nat (length l))) in *.
  assert (Hq : 0 < q) by lra.
  destruct (rnd_core Hq) as (v & Hv0 & _ & Hnorm & _ & [[_ E] | (_ & r & E & Erv)]).
  - left. exact E.
  - right. exists r. split; [exact E|].
    assert (Hsmall : 2 ^ (-1022) <= 1) by (apply Qlt_le_weak; reflexivity).
    assert (Hq' : 2 ^ (-1022) <= q) by lra.
    specialize (Hnorm Hq').
    change (2 ^ (-53)) with (1 # 9007199254740992) in Hnorm.
    apply Qabs_Qle_condition in Hnorm. lra.
Qed.

(** Dividing what is not negative by a positive double does not raise and
    gives what is not negative. *)
Lemma div_not_negative (x y : Double.double) :
  Double.not_negative x ->
  (y = Double.Inf false \/ exists r, y = Double.D r /\ 0 < r) ->
  exists z, Double.div x y = Double.Done z /\ Double.not_negative z.
Proof.
  intros Hx [-> | (r & -> & Hr)].
  - destruct x as [a|s|]; cbn [Double.div].
    + exists (Double.D 0). split; [reflexivity | cbn; lra].
    + exists Double.Nan. split; [reflexivity | exact I].
    + exists Double.Nan. split; [reflexivity | exact I].
  - cbn [Double.div].
    assert (Ez : Double.is_zero r = false) by (apply is_zero_false; lra).
    rewrite Ez.
    destruct x as [a|s|]; cbn [Double.not_negative] in Hx.
    + eexists. split; [reflexivity|]. apply rnd_not_negative.
      apply Qle_shift_div_l; [exact Hr | lra].
    + subst s. eexists. split; [reflexivity|].
      assert (En : Qltb r 0 = false) by (apply Qltb_ge; lra).
      rewrite En. reflexivity.
    + exists Double.Nan. split; [reflexivity | exact I].
Qed.

Section RootMeanSquare.
Context `{MathLib}.

Lemma sqrt_outcome (x : Double.double) :
  Double.not_negative x -> exists z, Double.sqrt x = Double.Done z /\ Double.in_range z.
Proof.
  destruct x as [a|s|]; cbn [Double.not_negative Double.sqrt]; intro Hx.
  - assert (En : Qltb a 0 = false) by (apply Qltb_ge; exact Hx).
    rewrite En. eexists. split; [reflexivity | apply rnd_in_range].
  - subst s. exists (Double.Inf false). split; [reflexivity | exact I].
  - exists Double.Nan. split; [reflexivity | exact I].
Qed.

(** [_rmse] raises only when a squared error overflows; otherwise it
    returns a value of the double range. *)
Lemma rmse_outcome (y_true y_pred : list Double.double) :
  (Double._rmse y_true y_pred = Double.Raise Double.OverflowError
   /\ Double.squares (combine y_true y_pred) = Double.Raise Double.OverflowError)
  \/ exists r, Double._rmse y_true y_pred = Double.Done r /\ Double.in_range r.
Proof.
  unfold Double._rmse. destruct y_true as [|y0 ys].
  { right. exists (Double.D 0). split; [reflexivity | cbn; reflexivity]. }
  destruct (squares_outcome (combine (y0 :: ys) y_pred)) as [E | (sq & E & Hsq)];
    rewrite E; cbn [Double.bind].
  { left. split; reflexivity. }
  right.
  assert (Hne : y0 :: ys <> []) by discriminate.
  destruct (@div_not_negative (Double.fsum sq) (Double.of_len (y0 :: ys))
              (fsum_not_negative Hsq) (of_len_positive Hne)) as (mse & Ed & Hmse).
  rewrite Ed. cbn [Double.bind]. apply sqrt_outcome. exact Hmse.
Qed.

End RootMeanSquare.

(** ** The floored RMSE and its inverse *)

Lemma c_1e_6_value :
  Double.c_1e_6 = Double.D (4722366482869645 # 4722366482869645213696).
Proof. vm_compute. reflexivity. Qed.

Lemma of_int_1 : Double.of_int 1 = Double.D 1.
Proof. vm_compute. reflexivity. Qed.

(** A floored RMSE is plus infinity or a finite double from [1e-6] up. *)
Lemma floor_rmse_cases (r : Double.double) :
  Double.in_range r ->
  Double.floor_rmse r = Double.Inf false
  \/ exists q, Double.floor_rmse r = Double.D q
               /\ (4722366482869645 # 4722366482869645213696) <= q /\ q < 2 ^ 1024.
Proof.
  intro Hr. unfold Double.floor_rmse, Double.gtb. rewrite c_1e_6_value.
  set (t := 4722366482869645 # 4722366482869645213696).
  assert (Ht : t < 2 ^ 1024) by reflexivity.
  destruct r as [q|s|]; cbn [Double.ltb Double.in_range] in *.
  - destruct (Qltb t q) eqn:E.
    + right. exists q. split; [reflexivity|]. apply Qltb_lt in E.
      split; [lra|]. apply Qabs_Qlt_condition in Hr. lra.
    + right. exists t. split; [reflexivity|]. split; [lra | exact Ht].
  - destruct s; cbn [negb].
    + right. exists t. split; [reflexivity|]. split; [lra | exact Ht].
    + left. reflexivity.
  - right. exists t. split; [reflexivity|]. split; [lra | exact Ht].
Qed.

(** The inverse of a floored RMSE: zero for plus infinity, otherwise a
    positive double of at most [2^20]. *)
Lemma inverse_of_floor (q : Q) :
  (4722366482869645 # 4722366482869645213696) <= q -> q < 2 ^ 1024 ->
  exists v, Double.div (Double.of_int 1) (Double.D q) = Double.Done (Double.D v)
            /\ 0 < v /\ v <= 2 ^ 20 /\ Double.on_grid v.
Proof.
  intros Hlo Hhi. rewrite of_int_1. cbn [Double.div].
  set (t := 4722366482869645 # 4722366482869645213696) in *.
  assert (Ht : 0 < t) by reflexivity.
  assert (Hq : 0 < q) by lra.
  assert (Ez : Double.is_zero q = false) by (apply is_zero_false; lra).
  rewrite Ez.
  set (x := 1 / q).
  assert (Hx1 : 2 ^ (-1024) < x).
  { unfold x. apply Qlt_shift_div_l; [exact Hq|].
    assert (E : 2 ^ (-1024) * 2 ^ 1024 == 1) by reflexivity.
    rewrite <- E. apply Qmult_lt_l; [apply pow2_pos | exact Hhi]. }
  assert (Hx2 : x <= 1 / t).
  { unfold x. apply Qle_shift_div_r; [exact Hq|].
    apply Qle_trans with (1 / t * t); [|apply Qmult_le_l; [reflexivity | exact Hlo]].
    apply Qle_lteq. right. reflexivity. }
  assert (Hx0 : 0 < x).
  { pose proof (pow2_pos (-1024)). lra. }
  assert (Hc1 : 1 / t <= 1000001) by (apply Qlt_le_weak; reflexivity).
  assert (Hc2 : 1000001 <= 2 ^ 1023) by (apply Qlt_le_weak; reflexivity).
  assert (Hmax : x <= 2 ^ 1023) by lra.
  destruct (rnd_positive Hx0 Hmax) as (v & Ev & Hv0 & Gv & Hnorm & Hsub).
  exists v. split; [rewrite Ev; reflexivity|].
  change (2 ^ (-53)) with (1 # 9007199254740992) in Hnorm.
  assert (Hc3 : 1000001 + 1 <= 2 ^ 20) by (apply Qlt_le_weak; reflexivity).
  destruct (Qlt_le_dec x (2 ^ (-1022))) as [Hs|Hn].
  - destruct (Hsub Hs) as [Hb _]. apply Qabs_Qle_condition in Hb.
    assert (Hc4 : 2 ^ (-1075) < 2 ^ (-1024)) by reflexivity.
    assert (Hc5 : 2 ^ (-1075) <= 1) by (apply Qlt_le_weak; reflexivity).
    split; [lra|]. split; [lra | exact Gv].
  - specialize (Hnorm Hn). apply Qabs_Qle_condition in Hnorm.
    split; [lra|]. split; [lra | exact Gv].
Qed.

(** ** The three weights *)

(** One weight: the share [a / T], rounded. *)
Lemma weight_of_share (a T : Q) :
  0 <= a -> 0 < T -> a / T <= 2 ->
  exists w, Double.div (Double.D a) (Double.D T) = Double.Done (Double.D w)
            /\ 0 <= w
            /\ Qabs (w - a / T) <= (1 # 9007199254740992) * (a / T) + 2 ^ (-1075).
Proof.
  intros Ha HT Hx. cbn [Double.div].
  assert (Ez : Double.is_zero T = false) by (apply is_zero_false; lra).
  rewrite Ez.
  set (x := a / T) in *.
  assert (Hx0 : 0 <= x) by (unfold x; apply Qle_shift_div_l; [exact HT | lra]).
  pose proof (pow2_pos (-1075)) as Heta.
  destruct (Qeq_dec x 0) as [E0|Hnz].
  - exists 0. unfold Double.rnd.
    assert (E : Qeq_bool x 0 = true) by (apply Qeq_bool_iff; exact E0).
    rewrite E. split; [reflexivity|]. split; [lra|].
    apply Qabs_Qle_condition. lra.
  - assert (Hpos : 0 < x) by lra.
    assert (Hc : 2 <= 2 ^ 1023) by (apply Qlt_le_weak; reflexivity).
    assert (Hmax : x <= 2 ^ 1023) by lra.
    destruct (rnd_positive Hpos Hmax) as (w & Ew & Hw0 & _ & Hnorm & Hsub).
    exists w. split; [rewrite Ew; reflexivity|]. split; [exact Hw0|].
    change (2 ^ (-53)) with (1 # 9007199254740992) in Hnorm.
    apply Qabs_Qle_condition.
    destruct (Qlt_le_dec x (2 ^ (-1022))) as [Hs|Hn].
    + destruct (Hsub Hs) as [Hb _]. apply Qabs_Qle_condition in Hb. lra.
    + specialize (Hnorm Hn). apply Qabs_Qle_condition in Hnorm. lra.
Qed.

(** Three inverses that are not all zero: their rounded sum is positive
    and the three rounded shares are not negative and add up to 1 within
    [1e-9]. *)
Lemma weights_of_inverses (v0 v1 v2 : Q) :
  0 <= v0 <= 2 ^ 20 -> 0 <= v1 <= 2 ^ 20 -> 0 <= v2 <= 2 ^ 20 ->
  Double.on_grid v0 -> Double.on_grid v1 -> Double.on_grid v2 ->
  0 < v0 + v1 + v2 ->
  exists T w0 w1 w2,
    Double.fsum [Double.D v0; Double.D v1; Double.D v2] = Double.D T
    /\ Double.div (Double.D v0) (Double.D T) = Double.Done (Double.D w0)
    /\ Double.div (Double.D v1) (Double.D T) = Double.Done (Double.D w1)
    /\ Double.div (Double.D v2) (Double.D T) = Double.Done (Double.D w2)
    /\ 0 <= w0 /\ 0 <= w1 /\ 0 <= w2
    /\ Qabs (w0 + w1 + w2 - 1) <= 1 # 1000000000.
Proof.
  intros H0 H1 H2 G0 G1 G2 HV.
  change (2 ^ 20) with 1048576 in *.
  assert (Hbig : 5000000 <= 2 ^ 1023) by (apply Qlt_le_weak; reflexivity).
  unfold Double.fsum. cbn [fold_left].
  change (Double.add (Double.D 0) (Double.D v0)) with (Double.D v0).
  destruct (@add_finite v0 v1) as (s1 & Es1 & Hs10 & Gs1 & Hs1);
    [lra | lra | exact G0 | exact G1 | lra |].
  change (2 ^ (-53)) with (1 # 9007199254740992) in Hs1.
  destruct (@add_finite s1 v2) as (T & ET & HT0 & _ & HT);
    [exact Hs10 | lra | exact Gs1 | exact G2 | lra |].
  change (2 ^ (-53)) with (1 # 9007199254740992) in HT.
  rewrite Es1, ET.
  assert (HTpos : 0 < T) by lra.
  set (V := v0 + v1 + v2) in *.
  assert (HTlo : (9007199254740991 # 9007199254740992)
                 * (9007199254740991 # 9007199254740992) * V <= T) by (unfold V; lra).
  assert (HThi : T <= (9007199254740993 # 9007199254740992)
                      * (9007199254740993 # 9007199254740992) * V) by (unfold V; lra).
  assert (Hshare : forall a, 0 <= a -> a <= V -> a / T <= 2).
  { intros a Ha HaV. apply Qle_shift_div_r; [exact HTpos | lra]. }
  destruct (@weight_of_share v0 T) as (w0 & E0 & Hw0 & B0);
    [lra | exact HTpos | apply Hshare; unfold V; lra |].
  destruct (@weight_of_share v1 T) as (w1 & E1 & Hw1 & B1);
    [lra | exact HTpos | apply Hshare; unfold V; lra |].
  destruct (@weight_of_share v2 T) as (w2 & E2 & Hw2 & B2);
    [lra | exact HTpos | apply Hshare; unfold V; lra |].
  exists T, w0, w1, w2.
  split; [reflexivity|]. split; [exact E0|]. split; [exact E1|]. split; [exact E2|].
  split; [exact Hw0|]. split; [exact Hw1|]. split; [exact Hw2|].
  assert (EX : v0 / T + v1 / T + v2 / T == V / T) by (unfold V; field; lra).
  assert (HXhi : V / T <= 1 + (1 # 10000000000)).
  { apply Qle_shift_div_r; [exact HTpos | lra]. }
  assert (HXlo : 1 - (1 # 10000000000) <= V / T).
  { apply Qle_shift_div_l; [exact HTpos | lra]. }
  set (x0 := v0 / T) in *. set (x1 := v1 / T) in *. set (x2 := v2 / T) in *.
  set (X := V / T) in *.
  assert (Heta : 2 ^ (-1075) <= 1 # 100000000000) by (apply Qlt_le_weak; reflexivity).
  pose proof (pow2_pos (-1075)) as Heta0.
  apply Qabs_Qle_condition in B0. apply Qabs_Qle_condition in B1.
  apply Qabs_Qle_condition in B2.
  apply Qabs_Qle_condition. lra.
Qed.

Lemma no_weights_of_zero_inverses :
  Double.div (Double.D 0)
             (Double.fsum [Double.D 0; Double.D 0; Double.D 0])
  = Double.Raise Double.ZeroDivisionError.
Proof. reflexivity. Qed.

(* ================================================================== *)
(** ** C2: the ensemble weights in double arithmetic *)

Lemma inverse_cases (r : Double.double) :
  Double.in_range r ->
  exists v, Double.div (Double.of_int 1) (Double.floor_rmse r) = Double.Done (Double.D v)
            /\ 0 <= v <= 2 ^ 20 /\ Double.on_grid v
            /\ ((Double.floor_rmse r = Double.Inf false /\ v = 0)
                \/ (Double.floor_rmse r <> Double.Inf false /\ 0 < v)).
Proof.
  intro Hr. destruct (@floor_rmse_cases r Hr) as [E | (q & E & Hlo & Hhi)]; rewrite E.
  - exists 0. rewrite of_int_1. split; [reflexivity|].
    split; [split; [lra | apply Qlt_le_weak; reflexivity]|].
    split; [apply on_grid_0|]. left. split; reflexivity.
  - destruct (@inverse_of_floor q Hlo Hhi) as (v & Ev & Hv0 & Hv1 & Gv).
    exists v. split; [exact Ev|]. split; [lra|]. split; [exact Gv|].
    right. split; [discriminate | exact Hv0].
Qed.

Section CalcWeights.
Context `{MathLib}.

(** C2, as amended. In double arithmetic [_calc_weights] does one of three
    things. It raises [OverflowError] when a squared error [(a - b) ** 2]
    of one of the three predictors overflows. It raises
    [ZeroDivisionError] when the three RMSEs are all infinite, the three
    inverses and their sum being zero then. In every other case it returns
    three weights that are finite, not negative, and add up to 1 within
    [1e-9]; this covers empty inputs and NaN among the values, an RMSE
    that is NaN or below [1e-6] being replaced by [1e-6]. *)
Theorem calc_weights_normalised
    (y_true base_pred ridge_pred knn_pred : list Double.double) :
  let out := Double._calc_weights y_true base_pred ridge_pred knn_pred in
  (out = Double.Raise Double.OverflowError
   /\ exists pred, In pred [base_pred; ridge_pred; knn_pred]
        /\ Double.squares (combine y_true pred) = Double.Raise Double.OverflowError)
  \/ (exists rb rr rk,
        Double._rmse y_true base_pred = Double.Done rb
        /\ Double._rmse y_true ridge_pred = Double.Done rr
        /\ Double._rmse y_true knn_pred = Double.Done rk
        /\ ((out = Double.Raise Double.ZeroDivisionError
             /\ Double.floor_rmse rb = Double.Inf false
             /\ Double.floor_rmse rr = Double.Inf false
             /\ Double.floor_rmse rk = Double.Inf false)
            \/ (~ (Double.floor_rmse rb = Double.Inf false
                   /\ Double.floor_rmse rr = Double.Inf false
                   /\ Double.floor_rmse rk = Double.Inf false)
                /\ exists w0 w1 w2,
                     out = Double.Done {| Double.baseline := Double.D w0;
                                          Double.ridge := Double.D w1;
                                          Double.knn := Double.D w2 |}
                     /\ 0 <= w0 /\ 0 <= w1 /\ 0 <= w2
                     /\ Qabs (w0 + w1 + w2 - 1) <= 1 # 1000000000))).
Proof.
  cbv zeta. unfold Double._calc_weights.
  destruct (rmse_outcome y_true base_pred) as [[E Esq] | (rb & Eb & Hb)].
  { left. rewrite E. cbn [Double.bind]. split; [reflexivity|].
    exists base_pred. split; [left; reflexivity | exact Esq]. }
  destruct (rmse_outcome y_true ridge_pred) as [[E Esq] | (rr & Er & Hr)].
  { left. rewrite Eb, E. cbn [Double.bind]. split; [reflexivity|].
    exists ridge_pred. split; [right; left; reflexivity | exact Esq]. }
  destruct (rmse_outcome y_true knn_pred) as [[E Esq] | (rk & Ek & Hk)].
  { left. rewrite Eb, Er, E. cbn [Double.bind]. split; [reflexivity|].
    exists knn_pred. split; [right; right; left; reflexivity | exact Esq]. }
  right. exists rb, rr, rk.
  split; [exact Eb|]. split; [exact Er|]. split; [exact Ek|].
  rewrite Eb, Er, Ek. cbn [Double.bind].
  destruct (@inverse_cases rb Hb) as (v0 & E0 & B0 & G0 & C0).
  destruct (@inverse_cases rr Hr) as (v1 & E1 & B1 & G1 & C1).
  destruct (@inverse_cases rk Hk) as (v2 & E2 & B2 & G2 & C2).
  rewrite E0, E1, E2. cbn [Double.bind].
  assert (Hdec : (v0 = 0 /\ v1 = 0 /\ v2 = 0
                  /\ Double.floor_rmse rb = Double.Inf false
                  /\ Double.floor_rmse rr = Double.Inf false
                  /\ Double.floor_rmse rk = Double.Inf false)
                 \/ (0 < v0 + v1 + v2
                     /\ ~ (Double.floor_rmse rb = Double.Inf false
                           /\ Double.floor_rmse rr = Double.Inf false
                           /\ Double.floor_rmse rk = Double.Inf false))).
  { destruct C0 as [[F0 Z0] | [F0 P0]].
    - destruct C1 as [[F1 Z1] | [F1 P1]].
      + destruct C2 as [[F2 Z2] | [F2 P2]].
        * left. repeat split; assumption.
        * right. split; [lra | intros (_ & _ & F); contradiction].
      + right. split; [lra | intros (_ & F & _); contradiction].
    - right. split; [lra | intros (F & _); contradiction]. }
  destruct Hdec as [(-> & -> & -> & F0 & F1 & F2) | [HV Hnot]].
  - left. rewrite no_weights_of_zero_inverses. cbn [Double.bind].
    split; [reflexivity|]. split; [exact F0|]. split; [exact F1 | exact F2].
  - right. split; [exact Hnot|].
    destruct (@weights_of_inverses v0 v1 v2 B0 B1 B2 G0 G1 G2 HV)
      as (T & w0 & w1 & w2 & ET & W0 & W1 & W2 & P0 & P1 & P2 & Hsum).
    exists w0, w1, w2. rewrite ET, W0, W1, W2. cbn [Double.bind].
    split; [reflexivity|]. split; [exact P0|]. split; [exact P1|].
    split; [exact P2 | exact Hsum].
Qed.

End CalcWeights.

(** The claim of C2 fails on non-empty inputs of the double range: with
    errors of [2^511] on four points every sum of squares is infinite and
    the division by the sum of the inverses raises; with an error of
    [2^600] the square itself overflows. No weights are returned. *)
Lemma calc_weights_raises :
  let zeros := [Double.D 0; Double.D 0; Double.D 0; Double.D 0] in
  let far := [Double.D (2 ^ 511); Double.D (2 ^ 511); Double.D (2 ^ 511);
              Double.D (2 ^ 511)] in
  @Double._calc_weights sqrt_12 zeros far far far = Double.Raise Double.ZeroDivisionError
  /\ @Double._calc_weights sqrt_12 [Double.D 0] [Double.D (2 ^ 600)] [Double.D 1]
                           [Double.D 1]
     = Double.Raise Double.OverflowError.
Proof. split; vm_compute; reflexivity. Qed.

(** On ordinary values the weights come out as doubles whose sum is not 1
    exactly: three equal RMSEs of 84.74352625998633 give three weights of
    0.33333333333333337. *)
Example calc_weights_sum_is_rounded :
  let r := Double.rnd (8474352625998633 # 100000000000000) in
  let inv := Double.div (Double.of_int 1) r in
  Double.bind inv (fun i => Double.div i (Double.fsum [i; i; i]))
  = Double.Done (Double.D (3002399751580331 # 9007199254740992))
  /\ ~ 3 * (3002399751580331 # 9007199254740992) == 1.
Proof. split; [vm_compute; reflexivity | discriminate]. Qed.

(* ================================================================== *)
(** ** C9: kNN over the whole reference pool, in double arithmetic *)







Section NearestNeighbours.
Context `{MathLib}.





End NearestNeighbours.


